(** * shrimp-rpc: the JSON-RPC 2.0 dispatcher ([handle], server.ts) and the
    call tracker ([createClient], client.ts) as Rocq functions.

    JS values are an inductive type, objects are association lists in
    insertion order, an [async] function returns the way its promise settles
    ([Settled]), and the client's mutable state (the pending [Map], the
    transport's log, the batch buffer) is passed explicitly. *)

From Stdlib Require Import QArith Qcanon.
From stdpp Require Import gmap strings list pretty.

Local Open Scope string_scope.
Set Warnings "-register-all".

(** ** JavaScript values *)

Module JS.

(** A JS number that JSON can carry is a finite double, hence a rational; on
    those, [===] and the key equality of [Map] are equality of rationals. *)
Definition number := Qc.

Definition num (z : Z) : number := Q2Qc (inject_Z z).

Inductive JSValue :=
| JUndefined
| JNull
| JBool (b : bool)
| JNum (n : number)
| JStr (s : string)
| JArr (elements : list JSValue)
| JObj (fields : list (string * JSValue)).

(** [export type Id = string | number] (jsonrpc.ts). *)
Inductive Id :=
| IdString (s : string)
| IdNumber (n : number).

#[global] Instance Id_eq_dec : EqDecision Id.
Proof. solve_decision. Defined.

#[global] Instance Id_countable : Countable Id.
Proof.
  refine (inj_countable'
    (fun i => match i with IdString s => inl s | IdNumber n => inr n end)
    (fun x => match x with inl s => IdString s | inr n => IdNumber n end) _).
  intros []; reflexivity.
Defined.

Definition Id_value (i : Id) : JSValue :=
  match i with IdString s => JStr s | IdNumber n => JNum n end.

(** The key a value denotes in a [Map<string | number, _>]: no other value
    is ever stored as a key, so looking one up finds nothing. *)
Definition as_Id (v : JSValue) : option Id :=
  match v with
  | JStr s => Some (IdString s)
  | JNum n => Some (IdNumber n)
  | _ => None
  end.

(** What a [throw] or a rejected promise carries, as far as the code can
    tell values apart: [instanceof Error], [instanceof RPCError] (error.ts:
    a subclass of Error with [code] and [data]), or any other value, of the
    kinds that [JSValue] has. *)
Inductive Thrown :=
| ThrownError (message : string)
| ThrownRPCError (message : string) (code : JSValue) (data : JSValue)
| ThrownValue (v : JSValue).

(** How the promise of an [async] function (or of a call that may throw)
    settles; a promise that stays pending for ever has no counterpart
    here. *)
Inductive Settled (A : Type) :=
| Fulfilled (a : A)
| Rejected (e : Thrown).
Arguments Fulfilled {A} a.
Arguments Rejected {A} e.

(** [Promise.all]: the results in order, or the first rejection. *)
Fixpoint Promise_all {A} (ps : list (Settled A)) : Settled (list A) :=
  match ps with
  | [] => Fulfilled []
  | Rejected e :: _ => Rejected e
  | Fulfilled a :: ps' =>
      match Promise_all ps' with
      | Fulfilled l => Fulfilled (a :: l)
      | Rejected e => Rejected e
      end
  end.

(** Property lookup in the fields of an object. *)
Fixpoint lookup_field (key : string) (fields : list (string * JSValue))
  : option JSValue :=
  match fields with
  | [] => None
  | (k, v) :: rest => if String.eqb k key then Some v else lookup_field key rest
  end.

(** [v?.key], for the property names the code reads ([jsonrpc], [id],
    [method], [params], [result], [error], [message], [code], [data]), none
    of which a prototype provides: a missing property, and any property of a
    primitive or of an array, reads as [undefined]. *)
Definition get (v : JSValue) (key : string) : JSValue :=
  match v with
  | JObj fields => default JUndefined (lookup_field key fields)
  | _ => JUndefined
  end.

(** [key in v], for the same property names; [None] is the TypeError that
    [in] raises on a value that is not an object. *)
Definition has_property (key : string) (v : JSValue) : option bool :=
  match v with
  | JObj fields => Some (bool_decide (is_Some (lookup_field key fields)))
  | JArr _ => Some false
  | _ => None
  end.

(** [v === s] for a string literal [s]. *)
Definition strict_equal_string (v : JSValue) (s : string) : bool :=
  match v with
  | JStr s' => String.eqb s' s
  | _ => false
  end.

(** [v != null] and [v ?? d]. *)
Definition nullish (v : JSValue) : bool :=
  match v with
  | JUndefined | JNull => true
  | _ => false
  end.

Definition nullish_coalesce (v d : JSValue) : JSValue :=
  if nullish v then d else v.

(** [!!v]. *)
Definition truthy (v : JSValue) : bool :=
  match v with
  | JUndefined | JNull => false
  | JBool b => b
  | JNum n => negb (bool_decide (n = num 0))
  | JStr s => negb (String.eqb s "")
  | JArr _ | JObj _ => true
  end.

(** The value of a property of an object that may hold functions: a
    function, as applied to one argument (it returns a value or a promise
    of one, or it throws or its promise rejects), or a value that cannot be
    called. *)
Inductive Property :=
| PFunction (f : JSValue -> Settled JSValue)
| PValue (v : JSValue).

(** The built-ins of the host that the code calls. *)
Class Runtime := {
  (** [JSON.parse]: [None] when it throws a SyntaxError. *)
  JSON_parse : string -> option JSValue;
  (** [Number.prototype.toString]. *)
  Number_toString : number -> string;
  (** The [n]-th result of [crypto.randomUUID()]. *)
  randomUUID : nat -> string;
  (** [Object.prototype[name].call(this, arg)] for the methods of
      [Object.prototype], [this] being a plain object with the given own
      properties. *)
  Object_prototype_call :
    string -> gmap string Property -> JSValue -> Settled JSValue;
}.

(** [String(v)], which is also ['' + v] and the coercion of a property key
    ([ToPrimitive], ECMA-262 7.1.1). It can throw: an object of this type
    has no callable own property, so an own [toString] hides
    [Object.prototype.toString] without being callable, [valueOf] (own and
    not callable, or inherited and returning the object) gives no primitive
    either, and the coercion ends in a TypeError (the message is V8's). An
    array joins the strings of its elements, [null] and [undefined] counting
    as empty, and throws where one of them does. *)
Definition TypeError_primitive : Thrown :=
  ThrownError "Cannot convert object to primitive value".

Fixpoint ToString `{Runtime} (v : JSValue) : Settled string :=
  match v with
  | JUndefined => Fulfilled "undefined"
  | JNull => Fulfilled "null"
  | JBool true => Fulfilled "true"
  | JBool false => Fulfilled "false"
  | JNum n => Fulfilled (Number_toString n)
  | JStr s => Fulfilled s
  | JArr elements =>
      match
        (fix join (l : list JSValue) : Settled (list string) :=
           match l with
           | [] => Fulfilled []
           | x :: rest =>
               match (if nullish x then Fulfilled "" else ToString x) with
               | Rejected e => Rejected e
               | Fulfilled text =>
                   match join rest with
                   | Rejected e => Rejected e
                   | Fulfilled texts => Fulfilled (text :: texts)
                   end
               end
           end) elements
      with
      | Rejected e => Rejected e
      | Fulfilled texts => Fulfilled (String.concat "," texts)
      end
  | JObj fields =>
      if bool_decide (is_Some (lookup_field "toString" fields))
      then Rejected TypeError_primitive
      else Fulfilled "[object Object]"
  end.

(** [ToPropertyKey(v)], the coercion in [obj[v]]: the same string (no value
    of this type is a symbol). *)
Definition ToPropertyKey `{Runtime} (v : JSValue) : Settled string :=
  ToString v.

End JS.
Export JS.

(** ** The dispatcher (server.ts) *)

Module Server.

Section Dispatcher.
Context `{RT : Runtime}.

(** [export const jsonrpc = '2.0'] (jsonrpc.ts). *)
Definition jsonrpc : string := "2.0".

(** The object a [Handler<T>] is at run time: its own properties, and
    whether it inherits from [Object.prototype] (an object literal does, the
    result of [Object.create(null)] does not). *)
Record HandlerObject := {
  own : gmap string Property;
  inherits_Object_prototype : bool;
}.

Definition plain_object (properties : gmap string Property) : HandlerObject :=
  {| own := properties; inherits_Object_prototype := true |}.

(** The function-valued properties of [Object.prototype] (ECMA-262, 20.1.3
    and B.2.2). *)
Definition Object_prototype_methods : list string :=
  [ "constructor"; "hasOwnProperty"; "isPrototypeOf"; "propertyIsEnumerable";
    "toLocaleString"; "toString"; "valueOf"; "__defineGetter__";
    "__defineSetter__"; "__lookupGetter__"; "__lookupSetter__" ].

(** Every property name of [Object.prototype]: its methods and the accessor
    [__proto__]. *)
Definition Object_prototype_names : list string :=
  Object_prototype_methods ++ ["__proto__"].

(** What reading [key] on a plain object without that own property gives:
    a method of [Object.prototype] bound to the object, or, for
    [__proto__], the prototype itself (an object, which cannot be called). *)
Definition Object_prototype (this : gmap string Property) (key : string)
  : option Property :=
  if bool_decide (key ∈ Object_prototype_methods)
  then Some (PFunction (Object_prototype_call key this))
  else if bool_decide (key = "__proto__") then Some (PValue (JObj []))
  else None.

(** [handlerObj[key]] once the key is a property name: an own property,
    else an inherited one, else [undefined]. *)
Definition handler_get (handlerObj : HandlerObject) (name : string) : Property :=
  match own handlerObj !! name with
  | Some p => p
  | None =>
      if inherits_Object_prototype handlerObj
      then default (PValue JUndefined) (Object_prototype (own handlerObj) name)
      else PValue JUndefined
  end.

(** [!!fn] *)
Definition Property_truthy (fn : Property) : bool :=
  match fn with
  | PFunction _ => true
  | PValue v => truthy v
  end.

(** [await fn.call(handlerObj, params)]: a function runs; on any other
    value [fn.call] is not a function and the call raises a TypeError (the
    message is V8's). *)
Definition call (fn : Property) (params : JSValue) : Settled JSValue :=
  match fn with
  | PFunction f => f params
  | PValue _ => Rejected (ThrownError "fn.call is not a function")
  end.

(** [handler: Handler<T> | ((context: Context) => Handler<T>)] *)
Inductive Handler (Context : Type) :=
| HandlerMap (handlerObj : HandlerObject)
| HandlerFactory (factory : Context -> Settled HandlerObject).
Arguments HandlerMap {Context} handlerObj.
Arguments HandlerFactory {Context} factory.

(** [typeof handler === 'function' ? handler(context!) : handler] *)
Definition resolve_handler {Context} (handler : Handler Context)
    (context : Context) : Settled HandlerObject :=
  match handler with
  | HandlerFactory factory => factory context
  | HandlerMap handlerObj => Fulfilled handlerObj
  end.

Definition error_object (code : Z) (message : string) : JSValue :=
  JObj [("code", JNum (num code)); ("message", JStr message)].

Definition invalidRequest : JSValue :=
  JObj [("jsonrpc", JStr jsonrpc); ("id", JNull);
        ("error", error_object (-32600) "Invalid Request")].

Definition methodNotFound (id : JSValue) : JSValue :=
  JObj [("jsonrpc", JStr jsonrpc); ("id", id);
        ("error", error_object (-32601) "Method not found")].

Definition parseError : JSValue :=
  JObj [("jsonrpc", JStr jsonrpc); ("id", JNull);
        ("error", error_object (-32700) "Parse error")].

Definition ResultMessage (id result : JSValue) : JSValue :=
  JObj [("jsonrpc", JStr jsonrpc); ("id", id); ("result", result)].

Definition ErrorMessage (id : JSValue) (errorMessage : string)
    (errorCode errorData : JSValue) : JSValue :=
  JObj [("jsonrpc", JStr jsonrpc); ("id", id);
        ("error", JObj [("message", JStr errorMessage); ("code", errorCode);
                        ("data", errorData)])].

(** The [catch] block of [onMessage]: ['' + error] is evaluated there, so
    what it throws is not caught and rejects the promise of [onMessage]. *)
Definition caught (id : JSValue) (error : Thrown) : Settled JSValue :=
  if negb (nullish id) then
    match error with
    | ThrownError message =>
        Fulfilled (ErrorMessage id message (JNum (num 0)) JUndefined)
    | ThrownRPCError message code data =>
        Fulfilled (ErrorMessage id message code data)
    | ThrownValue v =>
        match ToString v with
        | Rejected e => Rejected e
        | Fulfilled errorMessage =>
            Fulfilled (ErrorMessage id errorMessage (JNum (num 0)) JUndefined)
        end
    end
  else Fulfilled JUndefined.

(** [async function onMessage(message)]; a message whose [jsonrpc] is
    ['2.0'] is an object, so [in] does not throw. The handler object and
    [handlerObj[message.method]] are evaluated before the [try], so a
    factory that throws, or a [method] that cannot be made a property key,
    rejects the promise. *)
Definition onMessage {Context} (handler : Handler Context) (context : Context)
    (message : JSValue) : Settled JSValue :=
  if negb (strict_equal_string (get message "jsonrpc") "2.0") then
    Fulfilled invalidRequest
  else if default false (has_property "method" message) then
    match resolve_handler handler context with
    | Rejected e => Rejected e
    | Fulfilled handlerObj =>
        match ToPropertyKey (get message "method") with
        | Rejected e => Rejected e
        | Fulfilled name =>
            let fn := handler_get handlerObj name in
            if negb (Property_truthy fn) then
              Fulfilled
                (methodNotFound (nullish_coalesce (get message "id") JNull))
            else
              match call fn (get message "params") with
              | Fulfilled result =>
                  if negb (nullish (get message "id"))
                  then Fulfilled (ResultMessage (get message "id") result)
                  else Fulfilled JUndefined
              | Rejected error => caught (get message "id") error
              end
        end
    end
  else Fulfilled JUndefined.

(** [export async function handle(payloadOrString, handler, context)] *)
Definition handle {Context} (payloadOrString : JSValue)
    (handler : Handler Context) (context : Context) : Settled JSValue :=
  let dispatch (payload : JSValue) :=
    match payload with
    | JArr elements =>
        if bool_decide (length elements = 0%nat) then Fulfilled invalidRequest
        else
          match Promise_all (List.map (onMessage handler context) elements) with
          | Rejected e => Rejected e
          | Fulfilled responses =>
              let responseBatch := List.filter truthy responses in
              if bool_decide (0 < length responseBatch)%nat
              then Fulfilled (JArr responseBatch)
              else Fulfilled JUndefined
          end
    | _ => onMessage handler context payload
    end in
  match payloadOrString with
  | JStr text =>
      match JSON_parse text with
      | None => Fulfilled parseError
      | Some payload => dispatch payload
      end
  | payload => dispatch payload
  end.

End Dispatcher.

Arguments HandlerMap {Context} handlerObj.
Arguments HandlerFactory {Context} factory.

End Server.

(** ** The call tracker (client.ts) *)

Module Client.

(** What [send] of a transport does with a payload, given the payloads it
    was handed before: it returns ([None]), or throws or rejects. *)
Record Transport := {
  send_outcome : list JSValue -> JSValue -> option Thrown;
}.

(** A call made to the [resolve] or to the [reject] of a promise. *)
Inductive Settlement :=
| Resolve (result : JSValue)
| Reject (error : Thrown).

(** The mutable state behind a client: the [pending] Map (each
    [{resolve, reject}] pair is named by the number of the promise it
    belongs to), the number of [callImpl] invocations so far (the [n]-th one
    draws the [n]-th UUID and creates promise [n]), the calls made to
    [resolve] and [reject], the payloads handed to the transport's [send],
    and the [batch] array of every accumulator made by [createBatch]. *)
Record State := {
  pending : gmap Id nat;
  calls : nat;
  settlements : list (nat * Settlement);
  sent : list JSValue;
  batches : list (list JSValue);
}.

Definition set_pending (f : gmap Id nat -> gmap Id nat) (st : State) : State :=
  {| pending := f (pending st); calls := calls st;
     settlements := settlements st; sent := sent st; batches := batches st |}.

Definition set_calls (n : nat) (st : State) : State :=
  {| pending := pending st; calls := n;
     settlements := settlements st; sent := sent st; batches := batches st |}.

Definition settle (request : nat) (s : Settlement) (st : State) : State :=
  {| pending := pending st; calls := calls st;
     settlements := settlements st ++ [(request, s)];
     sent := sent st; batches := batches st |}.

Definition log_sent (payload : JSValue) (st : State) : State :=
  {| pending := pending st; calls := calls st;
     settlements := settlements st; sent := sent st ++ [payload];
     batches := batches st |}.

Definition set_batches (f : list (list JSValue) -> list (list JSValue))
    (st : State) : State :=
  {| pending := pending st; calls := calls st;
     settlements := settlements st; sent := sent st;
     batches := f (batches st) |}.

(** The promise that [call] returns: [callImpl] either rejects with what
    [send] threw, or returns the promise it registered. *)
Inductive CallPromise :=
| Follows (promise : nat)
| RejectedWith (e : Thrown).

(** The [send] argument of [callImpl] and [notifyImpl]. *)
Inductive Sender :=
| transport_send
| addToBatch (batch : nat).

Section CallTracker.
Context `{RT : Runtime}.
Variable transport : Transport.

(** [createClient(transport)]: an empty [pending] Map. *)
Definition createClient : State :=
  {| pending := ∅; calls := 0; settlements := []; sent := []; batches := [] |}.

(** [pending.get(id)] and [pending.delete(id)] *)
Definition pending_get (id : JSValue) (st : State) : option nat :=
  i ← as_Id id; pending st !! i.

Definition pending_delete (id : JSValue) (st : State) : State :=
  match as_Id id with
  | Some i => set_pending (delete i) st
  | None => st
  end.

(** [new RPCError(error.message, error)]: reading [message] off [null] or
    [undefined] raises a TypeError (the message is V8's); [super(message)]
    keeps the string of a message that is not [undefined], and throws when
    the message has none; [code] is [opts.code ?? 0]. *)
Definition new_RPCError (error : JSValue) : Settled Thrown :=
  match error with
  | JUndefined =>
      Rejected (ThrownError
        "Cannot read properties of undefined (reading 'message')")
  | JNull =>
      Rejected (ThrownError
        "Cannot read properties of null (reading 'message')")
  | _ =>
      let message := get error "message" in
      match
        match message with
        | JUndefined => Fulfilled ""
        | _ => ToString message
        end
      with
      | Rejected e => Rejected e
      | Fulfilled text =>
          Fulfilled (ThrownRPCError text
            (nullish_coalesce (get error "code") (JNum (num 0)))
            (get error "data"))
      end
  end.

(** [function onMessage(message)]; the second component is what it throws,
    if anything. [in] throws on a primitive only, whose string exists. *)
Definition onMessage (message : JSValue) (st : State) : State * option Thrown :=
  match has_property "result" message with
  | None =>
      (st, Some (ThrownError
         ("Cannot use 'in' operator to search for 'result' in "
          ++ match ToString message with
             | Fulfilled text => text
             | Rejected _ => ""
             end)))
  | Some true =>
      let id := get message "id" in
      let result := get message "result" in
      match pending_get id st with
      | Some request => (settle request (Resolve result) (pending_delete id st), None)
      | None => (st, None)
      end
  | Some false =>
      if default false (has_property "error" message) then
        let id := get message "id" in
        if negb (nullish id) then
          let error := get message "error" in
          match pending_get id st with
          | Some request =>
              let st' := pending_delete id st in
              match new_RPCError error with
              | Fulfilled e => (settle request (Reject e) st', None)
              | Rejected e => (st', Some e)
              end
          | None => (st, None)
          end
        else (st, None)
      else (st, None)
  end.

(** [payload.forEach(onMessage)] *)
Fixpoint forEach_onMessage (messages : list JSValue) (st : State)
  : State * option Thrown :=
  match messages with
  | [] => (st, None)
  | message :: rest =>
      match onMessage message st with
      | (st', None) => forEach_onMessage rest st'
      | (st', Some e) => (st', Some e)
      end
  end.

(** [function receive(payload)] *)
Definition receive (payload : JSValue) (st : State) : State * option Thrown :=
  match payload with
  | JArr messages => forEach_onMessage messages st
  | _ => onMessage payload st
  end.

(** Calling the [send] that [callImpl] or [notifyImpl] was given. *)
Definition apply_sender (sender : Sender) (message : JSValue) (st : State)
  : State * option Thrown :=
  match sender with
  | transport_send =>
      (log_sent message st, send_outcome transport (sent st) message)
  | addToBatch batch =>
      (set_batches (alter (fun buffer => (buffer ++ [message])%list) batch) st, None)
  end.

(** [async function callImpl(method, params, send)] *)
Definition callImpl (method : string) (params : JSValue) (sender : Sender)
    (st : State) : State * CallPromise :=
  let id := randomUUID (calls st) in
  let promise := calls st in
  let st1 := set_pending <[IdString id := promise]> (set_calls (S (calls st)) st) in
  let message :=
    JObj [("jsonrpc", JStr Server.jsonrpc); ("method", JStr method);
          ("params", params); ("id", JStr id)] in
  match apply_sender sender message st1 with
  | (st2, Some e) => (st2, RejectedWith e)
  | (st2, None) => (st2, Follows promise)
  end.

(** [async function notifyImpl(method, params, send)] *)
Definition notifyImpl (method : string) (params : JSValue) (sender : Sender)
    (st : State) : State * option Thrown :=
  apply_sender sender
    (JObj [("jsonrpc", JStr Server.jsonrpc); ("method", JStr method);
           ("params", params)]) st.

(** The methods of the client object. *)
Definition call (method : string) (params : JSValue) (st : State) :=
  callImpl method params transport_send st.

Definition notify (method : string) (params : JSValue) (st : State) :=
  notifyImpl method params transport_send st.

(** [createBatch()]: a fresh empty [batch] array; the accumulator is named
    by its position among the arrays made so far. *)
Definition createBatch (st : State) : State * nat :=
  (set_batches (fun bs => (bs ++ [[]])%list) st, length (batches st)).

Definition batch_call (batch : nat) (method : string) (params : JSValue)
    (st : State) :=
  callImpl method params (addToBatch batch) st.

Definition batch_notify (batch : nat) (method : string) (params : JSValue)
    (st : State) :=
  notifyImpl method params (addToBatch batch) st.

(** [async flush()] *)
Definition flush (batch : nat) (st : State) : State * option Thrown :=
  let buffer := default [] (batches st !! batch) in
  if bool_decide (length buffer ≠ 0%nat) then
    let snapshot := buffer in
    let st' := set_batches <[batch := []]> st in
    (log_sent (JArr snapshot) st', send_outcome transport (sent st') (JArr snapshot))
  else (st, None).

(** Everything that can happen to a client: a method of the client or of an
    accumulator is called, or the transport calls [receive]. [stop] is the
    transport's own and touches none of the tracker's state. *)
Inductive Operation :=
| Call (method : string) (params : JSValue)
| Notify (method : string) (params : JSValue)
| CreateBatch
| BatchCall (batch : nat) (method : string) (params : JSValue)
| BatchNotify (batch : nat) (method : string) (params : JSValue)
| Flush (batch : nat)
| Receive (payload : JSValue)
| Stop.

Definition step (st : State) (op : Operation) : State :=
  match op with
  | Call method params => fst (call method params st)
  | Notify method params => fst (notify method params st)
  | CreateBatch => fst (createBatch st)
  | BatchCall batch method params => fst (batch_call batch method params st)
  | BatchNotify batch method params => fst (batch_notify batch method params st)
  | Flush batch => fst (flush batch st)
  | Receive payload => fst (receive payload st)
  | Stop => st
  end.

Definition run (ops : list Operation) (st : State) : State :=
  fold_left step ops st.

End CallTracker.

End Client.

(** ** The shapes of jsonrpc.ts, as predicates on values *)

Module Shape.

(** [ResultMessage | ErrorMessage]: the version tag, an [id] member, and
    either a [result] member or an [error] object with a string [message]
    and a [code]. *)
Definition is_response (v : JSValue) : bool :=
  match v with
  | JObj fields =>
      strict_equal_string (get v "jsonrpc") "2.0"
      && bool_decide (is_Some (lookup_field "id" fields))
      && (bool_decide (is_Some (lookup_field "result" fields))
          || match get v "error" with
             | JObj e =>
                 match lookup_field "message" e with
                 | Some (JStr _) => bool_decide (is_Some (lookup_field "code" e))
                 | _ => false
                 end
             | _ => false
             end)
  | _ => false
  end.

(** What [handle] may answer: nothing, one response, or a non-empty array
    of responses. *)
Definition is_reply (v : JSValue) : bool :=
  match v with
  | JUndefined => true
  | JArr responses =>
      negb (bool_decide (responses = [])) && forallb is_response responses
  | _ => is_response v
  end.

(** A request whose version tag is right: an object with [jsonrpc: '2.0']
    and a [method] member. *)
Definition is_request (v : JSValue) : bool :=
  strict_equal_string (get v "jsonrpc") "2.0"
  && default false (has_property "method" v).

(** The message that a payload or a text carries, when it carries one. *)
Definition carries `{Runtime} (payloadOrString message : JSValue) : Prop :=
  match payloadOrString with
  | JStr text => JSON_parse text = Some message
  | payload => payload = message
  end.

(** The same message under another version tag. *)
Definition with_version (version : JSValue) (message : JSValue) : JSValue :=
  match message with
  | JObj fields => JObj (("jsonrpc", version) :: fields)
  | _ => message
  end.

(** A message the call tracker reads as a reply: it has a [result] or an
    [error] member. *)
Definition is_reply_message (message : JSValue) : bool :=
  default false (has_property "result" message)
  || default false (has_property "error" message).

(** The promises that [resolve] or [reject] was called on, in order. *)
Definition settled (st : Client.State) : list nat :=
  (Client.settlements st).*1.

(** What holds of the pending table in every state of a client: a pending
    promise was created by an earlier [callImpl] and has not been settled,
    no two entries hold the same promise, and no promise was settled
    twice. *)
Record well_tracked (st : Client.State) : Prop := {
  pending_unsettled : forall i p,
    Client.pending st !! i = Some p -> p < Client.calls st /\ p ∉ settled st;
  pending_distinct : forall i j p,
    Client.pending st !! i = Some p -> Client.pending st !! j = Some p -> i = j;
  settled_once : NoDup (settled st);
  settled_created : forall p, p ∈ settled st -> p < Client.calls st;
}.

(** The request that [callImpl] builds. *)
Definition call_message (id method : string) (params : JSValue) : JSValue :=
  JObj [("jsonrpc", JStr "2.0"); ("method", JStr method); ("params", params);
        ("id", JStr id)].

Definition notify_message (method : string) (params : JSValue) : JSValue :=
  JObj [("jsonrpc", JStr "2.0"); ("method", JStr method); ("params", params)].


End Shape.

(** ** A host for the closed examples *)

Module Example.

(** Integers print in decimal, as in JS; the examples print no other
    number. *)
Definition Number_toString (n : number) : string :=
  if bool_decide (Qden n = 1%positive) then pretty (Qnum n)
  else pretty (Qnum n) ++ "/" ++ pretty (Zpos (Qden n)).

(** The host of client.test.ts: [crypto.randomUUID] is mocked to count from
    1. [JSON.parse] is cut down to three texts and fails on every other;
    [toString] and [toLocaleString] of [Object.prototype] answer
    [[object Object]], the other methods are not used by the examples. *)
#[export] Instance runtime : Runtime := {|
  JSON_parse text :=
    if String.eqb text "[]" then Some (JArr [])
    else if String.eqb text "{}" then Some (JObj [])
    else if String.eqb text "null" then Some JNull
    else None;
  JS.Number_toString := Number_toString;
  randomUUID n := pretty (S n);
  Object_prototype_call name this arg :=
    if bool_decide (name ∈ ["toString"; "toLocaleString"])
    then Fulfilled (JStr "[object Object]")
    else Fulfilled JUndefined;
|}.

(** Three methods of [mockHandler] of server.test.ts. *)
Definition add (params : JSValue) : Settled JSValue :=
  match get params "x", get params "y" with
  | JNum x, JNum y => Fulfilled (JNum (x + y)%Qc)
  | _, _ => Rejected (ThrownError "Cannot destructure property 'x'")
  end.

Definition mockHandler : Server.HandlerObject :=
  Server.plain_object
    {[ "add" := PFunction add;
       "throwsBasicError" :=
         PFunction (fun _ => Rejected (ThrownError "basic error"));
       "throwsCustomError" :=
         PFunction (fun _ => Rejected (ThrownRPCError "custom error"
           (JNum (num 123)) (JObj [("foo", JStr "bar")]))) ]}.

Definition request (id : JSValue) (method : string) (params : JSValue) : JSValue :=
  JObj [("jsonrpc", JStr "2.0"); ("id", id); ("method", JStr method);
        ("params", params)].

Definition notification (method : string) (params : JSValue) : JSValue :=
  JObj [("jsonrpc", JStr "2.0"); ("method", JStr method); ("params", params)].

Definition xy (x y : Z) : JSValue :=
  JObj [("x", JNum (num x)); ("y", JNum (num y))].

(** [mockSend] of client.test.ts never fails; [failingSend] always throws. *)
Definition mockSend : Client.Transport :=
  {| Client.send_outcome _ _ := None |}.


(** The client of client.test.ts after [call('add', {x: 1, y: 2})]. *)
Definition one_call : Client.State :=
  fst (Client.call mockSend "add" (xy 1 2) Client.createClient).

(** A client with one accumulator that holds one notification. *)
Definition one_batch : Client.State :=
  Client.run mockSend
    [Client.CreateBatch; Client.BatchNotify 0 "add" (xy 1 2)]
    Client.createClient.

End Example.

(** ** error.ts *)

Module Error.

(** [new RPCError(message, opts)]: [this.code = opts.code ?? 0] and
    [this.data = opts.data]. *)
Definition RPCError (message : string) (opts : JSValue) : Thrown :=
  ThrownRPCError message
    (nullish_coalesce (get opts "code") (JNum (num 0)))
    (get opts "data").

End Error.

(** ** The transports (transports/common.ts, serviceWorker.ts, stream.ts) *)

Module Transports.

(** A [MessageEvent], as far as the listeners read it. *)
Record MessageEvent (Window : Type) := {
  data : JSValue;
  source : Window;
  origin : string;
}.
Arguments data {Window} _.
Arguments source {Window} _.
Arguments origin {Window} _.

(** What stops a listener of a text transport: [JSON.parse] threw on a
    text, or [receive] threw. *)
Inductive Failure :=
| SyntaxError (text : string)
| Raised (e : Thrown).

(** The character ['\n']. *)
Definition newline : Ascii.ascii := Ascii.ascii_of_nat 10.

(** [text.split('\n')]: the pieces between the newlines, at least one. *)
Fixpoint split_newline (text : string) : list string :=
  match text with
  | EmptyString => [""]
  | String c rest =>
      if Ascii.eqb c newline then "" :: split_newline rest
      else
        match split_newline rest with
        | first :: others => String c first :: others
        | [] => [String c ""]
        end
  end.

(** [lines.pop()]: the array without its last element, and that element. *)
Definition pop {A} (lines : list A) : list A * option A :=
  (removelast lines, last lines).

(** The first three statements of [handleData] (stream.ts):
    [buffer += chunk; const lines = buffer.split('\n');
     buffer = lines.pop() ?? '']. It gives the complete lines and the new
    buffer. *)
Definition take_lines (buffer chunk : string) : list string * string :=
  let buffer := buffer ++ chunk in
  let lines := split_newline buffer in
  let '(lines, rest) := pop lines in
  (lines, default "" rest).

(** A sequence of ['data'] events, as far as the framing goes: the lines
    they complete, in order, and the buffer they leave. *)
Fixpoint feed_lines (chunks : list string) (buffer : string)
  : list string * string :=
  match chunks with
  | [] => ([], buffer)
  | chunk :: rest =>
      let '(lines, buffer') := take_lines buffer chunk in
      let '(more, final) := feed_lines rest buffer' in
      ((lines ++ more)%list, final)
  end.

Section Listeners.
Context `{RT : Runtime} {Window : Type}.
Variable JSON_stringify : JSValue -> string.

(** [void handle(...).then((reply) => { if (reply) { post(reply) } })]: what
    is posted; a rejection of [handle] is left unhandled. *)
Definition then_post {A} (outcome : Settled JSValue) (post : JSValue -> A)
  : list A :=
  match outcome with
  | Fulfilled reply => if truthy reply then [post reply] else []
  | Rejected _ => []
  end.

(** The listener of [createChannelServer_ReplyToSource] (common.ts):
    [event.source!.postMessage(reply, { targetOrigin: event.origin })]. *)
Definition createChannelServer_ReplyToSource
    (handler : Server.Handler (MessageEvent Window))
    (event : MessageEvent Window) : list (Window * JSValue * string) :=
  then_post (Server.handle (data event) handler event)
    (fun reply => (source event, reply, origin event)).

(** The listener of [createChannelServer_ReplyToTarget] (common.ts), which
    is also that of [createServiceWorkerServer] with the controller as
    target: [target.postMessage(reply)]. *)
Definition createChannelServer_ReplyToTarget (target : Window)
    (handler : Server.Handler (MessageEvent Window))
    (event : MessageEvent Window) : list (Window * JSValue) :=
  then_post (Server.handle (data event) handler event)
    (fun reply => (target, reply)).

(** The listener of [createSocketServer] (common.ts), [event.data] being a
    text: [target.send(JSON.stringify(reply))]. *)
Definition createSocketServer
    (handler : Server.Handler (MessageEvent Window))
    (event : MessageEvent Window) : list string :=
  then_post (Server.handle (data event) handler event) JSON_stringify.

(** The listener of [createChannelClient] (common.ts):
    [receive(event.data)]. *)
Definition createChannelClient (event : MessageEvent Window)
    (st : Client.State) : Client.State * option Thrown :=
  Client.receive (data event) st.

(** The listener of [createSocketClient] (common.ts):
    [receive(JSON.parse(event.data))]. *)
Definition createSocketClient (text : string) (st : Client.State)
  : Client.State * option Failure :=
  match JSON_parse text with
  | None => (st, Some (SyntaxError text))
  | Some payload =>
      let '(st', thrown) := Client.receive payload st in
      (st', Raised <$> thrown)
  end.

(** [for (const line of lines) { receive(JSON.parse(line)) }] of
    [createNodeStreamClient] (stream.ts). *)
Fixpoint receive_lines (lines : list string) (st : Client.State)
  : Client.State * option Failure :=
  match lines with
  | [] => (st, None)
  | line :: rest =>
      match createSocketClient line st with
      | (st', None) => receive_lines rest st'
      | (st', Some failure) => (st', Some failure)
      end
  end.

(** [handleData] of [createNodeStreamClient]; the state of the transport
    is its [buffer]. *)
Definition createNodeStreamClient_handleData (chunk : string)
    (buffer : string) (st : Client.State)
  : string * Client.State * option Failure :=
  let '(lines, buffer') := take_lines buffer chunk in
  let '(st', failure) := receive_lines lines st in
  (buffer', st', failure).

(** [send] of [createNodeStreamClient] and what the server writes for a
    reply: [output.write(JSON.stringify(payload) + '\n')]. *)
Definition write_line (payload : JSValue) : string :=
  JSON_stringify payload ++ String newline "".

(** [handleData] of [createNodeStreamServer]: the new buffer and what the
    complete lines make it write, listed by the line that is answered (the
    promises of [handle] may settle in another order). *)
Definition createNodeStreamServer_handleData
    (handler : Server.HandlerObject) (chunk : string) (buffer : string)
  : string * list string :=
  let '(lines, buffer') := take_lines buffer chunk in
  (buffer',
   flat_map (fun line =>
     then_post (Server.handle (JStr line) (Server.HandlerMap handler) tt)
       write_line) lines).

(** A sequence of ['data'] events on the server. *)
Fixpoint createNodeStreamServer_feed (handler : Server.HandlerObject)
    (chunks : list string) (buffer : string) : string * list string :=
  match chunks with
  | [] => (buffer, [])
  | chunk :: rest =>
      let '(buffer', written) :=
        createNodeStreamServer_handleData handler chunk buffer in
      let '(final, more) := createNodeStreamServer_feed handler rest buffer' in
      (final, (written ++ more)%list)
  end.

(** The listener of [createChromeExtensionServer] (chromeExtension.ts):
    [void handle(payload, handler, sender).then(sendResponse)]. It gives
    the value [sendResponse] is called with, or [None] when [handle]
    rejects and [sendResponse] is not called. *)
Definition createChromeExtensionServer {Sender : Type}
    (handler : Server.Handler Sender) (payload : JSValue) (sender : Sender)
  : option JSValue :=
  match Server.handle payload handler sender with
  | Fulfilled reply => Some reply
  | Rejected _ => None
  end.

(** [send] of [createChromeExtensionClient], from the moment
    [chrome.runtime.sendMessage] has answered [reply]:
    [if (reply) { receive(reply) }]. *)
Definition createChromeExtensionClient_send (reply : JSValue)
    (st : Client.State) : Client.State * option Thrown :=
  if truthy reply then Client.receive reply st else (st, None).

End Listeners.

End Transports.

(** ** Reading payloads, replies and texts *)

Module Reading.

(** The messages of a payload: the elements of a batch, or the one
    message. *)
Definition payload_messages (payload : JSValue) : list JSValue :=
  match payload with
  | JArr elements => elements
  | _ => [payload]
  end.

(** The responses in what [handle] answers: none in [undefined]. *)
Definition reply_responses (reply : JSValue) : list JSValue :=
  match reply with
  | JUndefined => []
  | JArr responses => responses
  | _ => [reply]
  end.

(** Whether a text holds the character ['\n']. *)
Fixpoint contains_newline (text : string) : bool :=
  match text with
  | EmptyString => false
  | String c rest => Ascii.eqb c Transports.newline || contains_newline rest
  end.

(** The texts one after the other: what a stream carries when they are
    written in turn. *)
Definition concat_texts (texts : list string) : string :=
  foldr String.append "" texts.

(** The state of a client with the entry of [id] removed and, when there
    is one, a settlement of [request] recorded. *)
Definition settled_entry (request : nat) (id : JSValue)
    (settlement : option Client.Settlement) (st : Client.State)
  : Client.State :=
  match settlement with
  | Some s => Client.settle request s (Client.pending_delete id st)
  | None => Client.pending_delete id st
  end.

(** A message that [onMessage] answers without a coercion that throws:
    every message that is not a request; a request whose [method] can be
    made a property key and whose handler, when the request has an [id],
    does not throw a value that has no string. *)
Definition answerable `{Runtime} (handlerObj : Server.HandlerObject)
    (message : JSValue) : bool :=
  if Shape.is_request message then
    match ToPropertyKey (get message "method") with
    | Rejected _ => false
    | Fulfilled name =>
        nullish (get message "id")
        || match Server.call (Server.handler_get handlerObj name)
                   (get message "params") with
           | Rejected (ThrownValue v) =>
               match ToString v with
               | Fulfilled _ => true
               | Rejected _ => false
               end
           | _ => true
           end
    end
  else true.

End Reading.

(** ** Events, texts and states for the closed examples *)

Module Fixture.
Import Example.

(** A message event from the window [page]. *)
Definition event (payload : JSValue) : Transports.MessageEvent string :=
  {| Transports.data := payload;
     Transports.source := "page";
     Transports.origin := "https://example.org" |}.

(** [JSON.stringify] on the three values whose texts the example
    [JSON.parse] reads: [null], [[]] and [{}]. *)
Definition stringify (v : JSValue) : string :=
  match v with
  | JNull => "null"
  | JArr [] => "[]"
  | _ => "{}"
  end.

(** The text ["\n"]. *)
Definition nl : string := String Transports.newline "".

(** The client of client.test.ts after two calls, pending under ["1"] and
    ["2"]. *)
Definition two_calls : Client.State :=
  Client.run Example.mockSend
    [Client.Call "add" (Example.xy 1 2); Client.Call "add" (Example.xy 3 4)]
    Client.createClient.

(** A client with two accumulators, the first holding one notification. *)
Definition two_batches : Client.State :=
  Client.run Example.mockSend
    [Client.CreateBatch; Client.CreateBatch;
     Client.BatchNotify 0 "add" (Example.xy 1 2)]
    Client.createClient.

Definition result_message (id : string) (result : Z) : JSValue :=
  JObj [("jsonrpc", JStr "2.0"); ("id", JStr id); ("result", JNum (num result))].

(** [{toString: 1}], as [JSON.parse] makes it: a value without a string. *)
Definition unprintable : JSValue := JObj [("toString", JNum (num 1))].

(** [mockHandler] with a method that throws that value. *)
Definition throwingHandler : Server.HandlerObject :=
  Server.plain_object
    (<["throwsObject" := PFunction (fun _ => Rejected (ThrownValue unprintable))]>
       (Server.own Example.mockHandler)).

End Fixture.

(** * Theorems *)

(** ** The dispatcher *)

Section DispatcherFacts.
Context `{RT : Runtime} {Context : Type}.
Import Server Shape.
Implicit Types (handler : Handler Context) (context : Context).
Implicit Types (message payload id : JSValue) (handlerObj : HandlerObject).

(** A message with the right version tag is an object. *)
Lemma version_2_object message :
  strict_equal_string (get message "jsonrpc") "2.0" = true ->
  exists fields, message = JObj fields.
Proof. destruct message; simpl; try discriminate. eauto. Qed.

(** [handle] on a payload or text that carries one message which is not an
    array is [onMessage] on that message. *)
Lemma handle_single payloadOrString message handler context :
  carries payloadOrString message ->
  (forall elements, message <> JArr elements) ->
  handle payloadOrString handler context = onMessage handler context message.
Proof.
  intros Hc Harr. unfold handle.
  destruct payloadOrString; simpl in Hc; subst; try reflexivity.
  - rewrite Hc. destruct message; try reflexivity. exfalso; eapply Harr; eauto.
  - exfalso; eapply Harr; eauto.
Qed.

Lemma handle_object payloadOrString fields handler context :
  carries payloadOrString (JObj fields) ->
  handle payloadOrString handler context
  = onMessage handler context (JObj fields).
Proof.
  intros Hc. apply handle_single; [assumption | discriminate].
Qed.

Lemma handle_request payloadOrString message handler context :
  carries payloadOrString message ->
  is_request message = true ->
  handle payloadOrString handler context = onMessage handler context message.
Proof.
  intros Hc [Hv _]%andb_true_iff.
  destruct (version_2_object _ Hv) as [fields ->].
  apply handle_object, Hc.
Qed.

(** A string is its own property key. *)
Lemma ToPropertyKey_string (name : string) :
  ToPropertyKey (JStr name) = Fulfilled name.
Proof. reflexivity. Qed.

(** What [onMessage] does with a request once the handler object is there
    and the [method] is a property key. *)
Lemma onMessage_request handler context handlerObj message name :
  is_request message = true ->
  resolve_handler handler context = Fulfilled handlerObj ->
  ToPropertyKey (get message "method") = Fulfilled name ->
  onMessage handler context message =
    let fn := handler_get handlerObj name in
    if Property_truthy fn then
      match call fn (get message "params") with
      | Fulfilled result =>
          Fulfilled (if nullish (get message "id") then JUndefined
                     else ResultMessage (get message "id") result)
      | Rejected error => caught (get message "id") error
      end
    else Fulfilled (methodNotFound (nullish_coalesce (get message "id") JNull)).
Proof.
  unfold is_request, onMessage. intros [Hv Hm]%andb_true_iff Hh Hk.
  rewrite Hv, Hm, Hh, Hk. simpl.
  destruct (Property_truthy _); simpl; [|reflexivity].
  destruct (call _ _); [|reflexivity].
  destruct (nullish _); reflexivity.
Qed.

(** The same for a [method] that is a string, as the type of a request has
    it. *)
Lemma onMessage_named handler context handlerObj message method :
  is_request message = true ->
  resolve_handler handler context = Fulfilled handlerObj ->
  get message "method" = JStr method ->
  onMessage handler context message =
    let fn := handler_get handlerObj method in
    if Property_truthy fn then
      match call fn (get message "params") with
      | Fulfilled result =>
          Fulfilled (if nullish (get message "id") then JUndefined
                     else ResultMessage (get message "id") result)
      | Rejected error => caught (get message "id") error
      end
    else Fulfilled (methodNotFound (nullish_coalesce (get message "id") JNull)).
Proof.
  intros Hreq Hh Hm. apply onMessage_request; try assumption.
  rewrite Hm. reflexivity.
Qed.

Lemma own_handler_get handlerObj method fn :
  own handlerObj !! method = Some fn ->
  handler_get handlerObj method = fn.
Proof. unfold handler_get. intros ->. reflexivity. Qed.

(** A request without an [id] that names an unknown method is answered all
    the same, with [id: null]. *)
Lemma onMessage_unknown_method handler context handlerObj message name :
  is_request message = true ->
  resolve_handler handler context = Fulfilled handlerObj ->
  ToPropertyKey (get message "method") = Fulfilled name ->
  Property_truthy (handler_get handlerObj name) = false ->
  onMessage handler context message
  = Fulfilled (methodNotFound (nullish_coalesce (get message "id") JNull)).
Proof.
  intros Hreq Hh Hk Hfn. rewrite (onMessage_request _ _ _ _ _ Hreq Hh Hk).
  simpl. rewrite Hfn. reflexivity.
Qed.

(** Every answer of [onMessage] is [undefined] or a response. *)
Lemma caught_response id error response :
  caught id error = Fulfilled response ->
  response = JUndefined \/ is_response response = true.
Proof.
  unfold caught. destruct (nullish id); simpl;
    [intros [= <-]; left; reflexivity|].
  destruct error as [text|text code data|v];
    try (intros [= <-]; right; reflexivity).
  destruct (ToString v); [intros [= <-]; right; reflexivity | discriminate].
Qed.

Lemma onMessage_shape handler context message response :
  onMessage handler context message = Fulfilled response ->
  response = JUndefined \/ is_response response = true.
Proof.
  unfold onMessage.
  destruct (strict_equal_string _ _); simpl;
    [|intros [= <-]; right; reflexivity].
  destruct (default false _); [|intros [= <-]; left; reflexivity].
  destruct (resolve_handler _ _) as [handlerObj|]; [|discriminate].
  destruct (ToPropertyKey _) as [name|]; [|discriminate].
  destruct (Property_truthy _); simpl; [|intros [= <-]; right; reflexivity].
  destruct (call _ _) as [result|error]; [|apply caught_response].
  destruct (nullish _); simpl; intros [= <-]; [left|right]; reflexivity.
Qed.

(** [onMessage] answers an answerable message once the handler object is
    there. *)
Lemma onMessage_answered handler context handlerObj message :
  resolve_handler handler context = Fulfilled handlerObj ->
  Reading.answerable handlerObj message = true ->
  exists response, onMessage handler context message = Fulfilled response.
Proof.
  intros Hh Ha. unfold Reading.answerable in Ha.
  destruct (is_request message) eqn:Hreq.
  - destruct (ToPropertyKey (get message "method")) as [name|] eqn:Hk;
      [|discriminate].
    rewrite (onMessage_request _ _ _ _ _ Hreq Hh Hk). cbv zeta.
    destruct (Property_truthy _); [|eauto].
    destruct (call _ _) as [result|error]; [eauto|].
    unfold caught. destruct (nullish _); simpl in *; [eauto|].
    destruct error as [text|text code data|v]; eauto.
    destruct (ToString v); [eauto|discriminate].
  - unfold is_request in Hreq. unfold onMessage.
    destruct (strict_equal_string _ _); simpl in *; [rewrite Hreq|]; eauto.
Qed.

Lemma onMessage_response handler context handlerObj message :
  resolve_handler handler context = Fulfilled handlerObj ->
  Reading.answerable handlerObj message = true ->
  exists response,
    onMessage handler context message = Fulfilled response
    /\ (response = JUndefined \/ is_response response = true).
Proof.
  intros Hh Ha. destruct (onMessage_answered _ _ _ _ Hh Ha) as (r & Hr).
  exists r. split; [assumption|]. eapply onMessage_shape, Hr.
Qed.

Lemma is_response_truthy response :
  is_response response = true -> truthy response = true.
Proof. destruct response; simpl; congruence. Qed.

(** [Promise.all] over the answers of a batch, then the filter. *)
Lemma batch_shape handler context (elements responses : list JSValue) :
  Promise_all (List.map (onMessage handler context) elements)
  = Fulfilled responses ->
  forallb is_response (List.filter truthy responses) = true.
Proof.
  revert responses. induction elements as [|message rest IH]; intros responses.
  - intros [= <-]. reflexivity.
  - simpl. destruct (onMessage handler context message) as [r|] eqn:Hr;
      [|discriminate].
    destruct (Promise_all _) as [rs|]; [|discriminate]. intros [= <-].
    specialize (IH rs eq_refl).
    apply onMessage_shape in Hr as [-> | Hshape]; simpl; [assumption|].
    rewrite (is_response_truthy _ Hshape). simpl. rewrite Hshape, IH.
    reflexivity.
Qed.

Lemma batch_answered handler context handlerObj (elements : list JSValue) :
  resolve_handler handler context = Fulfilled handlerObj ->
  Forall (fun message => Reading.answerable handlerObj message = true)
    elements ->
  exists responses,
    Promise_all (List.map (onMessage handler context) elements)
    = Fulfilled responses.
Proof.
  intros Hh Hans. induction Hans as [|message rest Ha _ (responses & Hall)].
  - exists []. reflexivity.
  - destruct (onMessage_answered _ _ _ _ Hh Ha) as (r & Hr).
    exists (r :: responses). simpl. rewrite Hr, Hall. reflexivity.
Qed.

(** Whatever [handle] is fulfilled with is [undefined], a response, or a
    non-empty array of responses. *)
Lemma handle_shape payloadOrString handler context reply :
  handle payloadOrString handler context = Fulfilled reply ->
  is_reply reply = true.
Proof.
  assert (Hdispatch : forall payload,
    match payload with
    | JArr elements =>
        if bool_decide (length elements = 0%nat) then Fulfilled invalidRequest
        else
          match Promise_all (List.map (onMessage handler context) elements) with
          | Rejected e => Rejected e
          | Fulfilled responses =>
              let responseBatch := List.filter truthy responses in
              if bool_decide (0 < length responseBatch)%nat
              then Fulfilled (JArr responseBatch)
              else Fulfilled JUndefined
          end
    | _ => onMessage handler context payload
    end = Fulfilled reply -> is_reply reply = true).
  { intros payload.
    destruct payload;
      try (intros [-> | Hs]%onMessage_shape; [reflexivity|];
           destruct reply; simpl in *; congruence).
    case_bool_decide; [intros [= <-]; reflexivity|].
    destruct (Promise_all _) as [responses|] eqn:Hall; [|discriminate].
    apply batch_shape in Hall. cbv zeta.
    case_bool_decide; intros [= <-]; [|reflexivity].
    simpl. rewrite Hall. destruct (List.filter truthy responses);
      [simpl in *; lia | reflexivity]. }
  unfold handle. destruct payloadOrString as [| | | |text| |].
  5: { destruct (JSON_parse text) as [payload|]; [apply (Hdispatch payload)|].
       intros [= <-]. reflexivity. }
  all: match goal with
       | |- context [onMessage _ _ ?v] => apply (Hdispatch v)
       | |- context [Promise_all (map _ ?l)] => apply (Hdispatch (JArr l))
       end.
Qed.

(** [handle] is fulfilled when the handler object is there and every
    message of the payload is answerable. *)
Lemma handle_answered payloadOrString handler context handlerObj :
  resolve_handler handler context = Fulfilled handlerObj ->
  (forall payload, carries payloadOrString payload ->
   Forall (fun message => Reading.answerable handlerObj message = true)
     (Reading.payload_messages payload)) ->
  exists reply, handle payloadOrString handler context = Fulfilled reply.
Proof.
  intros Hh Hans.
  assert (Hdispatch : forall payload,
    Forall (fun message => Reading.answerable handlerObj message = true)
      (Reading.payload_messages payload) ->
    exists reply,
    match payload with
    | JArr elements =>
        if bool_decide (length elements = 0%nat) then Fulfilled invalidRequest
        else
          match Promise_all (List.map (onMessage handler context) elements) with
          | Rejected e => Rejected e
          | Fulfilled responses =>
              let responseBatch := List.filter truthy responses in
              if bool_decide (0 < length responseBatch)%nat
              then Fulfilled (JArr responseBatch)
              else Fulfilled JUndefined
          end
    | _ => onMessage handler context payload
    end = Fulfilled reply).
  { intros payload Hp.
    destruct payload;
      try (apply Forall_inv in Hp; eapply onMessage_answered; eassumption).
    simpl in Hp. case_bool_decide; [eauto|].
    destruct (batch_answered _ _ _ _ Hh Hp) as (responses & ->).
    cbv zeta. case_bool_decide; eauto. }
  unfold handle. destruct payloadOrString as [| | | |text| |].
  5: { destruct (JSON_parse text) as [payload|] eqn:Hparse; [|eauto].
       apply (Hdispatch payload), Hans, Hparse. }
  all: match goal with
       | |- context [onMessage _ _ ?v] =>
           apply (Hdispatch v), Hans; reflexivity
       | |- context [Promise_all (map _ ?l)] =>
           apply (Hdispatch (JArr l)), Hans; reflexivity
       end.
Qed.

(** [onMessage] rejects on a message that is not answerable. *)
Lemma onMessage_unanswerable handler context handlerObj message :
  resolve_handler handler context = Fulfilled handlerObj ->
  Reading.answerable handlerObj message = false ->
  exists e, onMessage handler context message = Rejected e.
Proof.
  intros Hh Ha. unfold Reading.answerable in Ha.
  destruct (is_request message) eqn:Hreq; [|discriminate].
  destruct (ToPropertyKey (get message "method")) as [name|e] eqn:Hk.
  - rewrite (onMessage_request _ _ _ _ _ Hreq Hh Hk). cbv zeta.
    apply orb_false_iff in Ha as [Hid Ha].
    unfold call in *.
    destruct (handler_get handlerObj name) as [f|v]; [|discriminate].
    simpl. destruct (f _) as [result|[text|text code data|v]];
      try discriminate.
    unfold caught. rewrite Hid. simpl.
    destruct (ToString v); [discriminate|eauto].
  - apply andb_true_iff in Hreq as [Hv Hm].
    unfold onMessage. rewrite Hv, Hm, Hh, Hk. simpl. eauto.
Qed.

Lemma batch_unanswerable handler context handlerObj (elements : list JSValue) :
  resolve_handler handler context = Fulfilled handlerObj ->
  Exists (fun message => Reading.answerable handlerObj message = false)
    elements ->
  exists e,
    Promise_all (List.map (onMessage handler context) elements) = Rejected e.
Proof.
  intros Hh Hex. induction Hex as [message rest Ha|message rest _ (e & He)].
  - destruct (onMessage_unanswerable _ _ _ _ Hh Ha) as (e & He).
    exists e. simpl. rewrite He. reflexivity.
  - simpl. destruct (onMessage handler context message); [|eauto].
    rewrite He. eauto.
Qed.

(** C2 (as amended): when the handler is a map, or a factory that returns
    one for the context, the promise of [handle] is fulfilled exactly when
    every message of the payload is answerable (the [method] of a request
    can be made a property key, and no handler throws, for a request with
    an [id], a value that has no string), whatever else the payload or text
    is and whatever the handlers do, a throwing handler included. It is
    then fulfilled with [undefined], with one response object, or with a
    non-empty array of response objects; and it rejects when some message
    of the payload is not answerable. *)
Theorem handle_fulfilled payloadOrString handler context handlerObj :
  resolve_handler handler context = Fulfilled handlerObj ->
  ((forall payload, carries payloadOrString payload ->
    Forall (fun message => Reading.answerable handlerObj message = true)
      (Reading.payload_messages payload)) ->
   exists reply,
     handle payloadOrString handler context = Fulfilled reply
     /\ is_reply reply = true)
  /\ (forall payload, carries payloadOrString payload ->
      Exists (fun message => Reading.answerable handlerObj message = false)
        (Reading.payload_messages payload) ->
      exists e, handle payloadOrString handler context = Rejected e).
Proof.
  intros Hh. split.
  - intros Hans.
    destruct (handle_answered _ _ _ _ Hh Hans) as (reply & Hreply).
    exists reply. split; [assumption|]. eapply handle_shape, Hreply.
  - intros payload Hc Hex.
    assert (Hdispatch : exists e,
      match payload with
      | JArr elements =>
          if bool_decide (length elements = 0%nat) then Fulfilled invalidRequest
          else
            match Promise_all (List.map (onMessage handler context) elements)
            with
            | Rejected e => Rejected e
            | Fulfilled responses =>
                let responseBatch := List.filter truthy responses in
                if bool_decide (0 < length responseBatch)%nat
                then Fulfilled (JArr responseBatch)
                else Fulfilled JUndefined
            end
      | _ => onMessage handler context payload
      end = Rejected e).
    { destruct payload as [| | | |text|elements|fields];
        try (apply Exists_cons in Hex as [Ha|Hnil];
             [eapply onMessage_unanswerable; eassumption|inversion Hnil]).
      simpl in Hex.
      rewrite bool_decide_eq_false_2
        by (destruct elements; [inversion Hex|discriminate]).
      destruct (batch_unanswerable _ _ _ _ Hh Hex) as (e & ->). eauto. }
    unfold handle.
    destruct payloadOrString as [| | | |text| |]; simpl in Hc;
      try (subst payload; exact Hdispatch).
    rewrite Hc. exact Hdispatch.
Qed.

(** C4: a request with the version tag ['2.0'] whose method is in the
    handler map is answered, when the handler returns and the [id] is not
    null, by the object [{jsonrpc: '2.0', id, result}] with the [id] of the
    message and the value the handler returned on the [params] of the
    message as they are; when the [id] is absent or null, by nothing. *)
Theorem handle_known_method payloadOrString message handler context
    handlerObj method f result :
  carries payloadOrString message ->
  is_request message = true ->
  get message "method" = JStr method ->
  resolve_handler handler context = Fulfilled handlerObj ->
  own handlerObj !! method = Some (PFunction f) ->
  f (get message "params") = Fulfilled result ->
  (nullish (get message "id") = false ->
   handle payloadOrString handler context
   = Fulfilled (JObj [("jsonrpc", JStr "2.0"); ("id", get message "id");
                      ("result", result)]))
  /\ (nullish (get message "id") = true ->
      handle payloadOrString handler context = Fulfilled JUndefined).
Proof.
  intros Hc Hreq Hm Hh Hown Hf.
  rewrite (handle_request _ _ _ _ Hc Hreq), (onMessage_named _ _ _ _ _ Hreq Hh Hm).
  rewrite (own_handler_get _ _ _ Hown). simpl. rewrite Hf.
  split; intros ->; reflexivity.
Qed.

(** C5 (as amended): when the handler of a request throws or rejects and
    the [id] is not null, the answer is the object
    [{jsonrpc: '2.0', id, error: {message, code, data}}] with the [id] of
    the message; its code is 0 and its data [undefined], unless the thrown
    value is an RPCError, whose code and data are used; its message is the
    error's message, or the string of a value that is not an Error. When
    that value has no string, the coercion throws in the [catch] block and
    the promise of [handle] rejects with what it threw. When the [id] is
    absent or null, the answer is nothing. *)
Theorem handle_throwing_method payloadOrString message handler context
    handlerObj method f error :
  carries payloadOrString message ->
  is_request message = true ->
  get message "method" = JStr method ->
  resolve_handler handler context = Fulfilled handlerObj ->
  own handlerObj !! method = Some (PFunction f) ->
  f (get message "params") = Rejected error ->
  (nullish (get message "id") = false ->
   handle payloadOrString handler context
   = match error with
     | ThrownRPCError text code data =>
         Fulfilled
           (JObj [("jsonrpc", JStr "2.0"); ("id", get message "id");
                  ("error", JObj [("message", JStr text); ("code", code);
                                  ("data", data)])])
     | ThrownError text =>
         Fulfilled
           (JObj [("jsonrpc", JStr "2.0"); ("id", get message "id");
                  ("error", JObj [("message", JStr text);
                                  ("code", JNum (num 0));
                                  ("data", JUndefined)])])
     | ThrownValue v =>
         match ToString v with
         | Fulfilled text =>
             Fulfilled
               (JObj [("jsonrpc", JStr "2.0"); ("id", get message "id");
                      ("error", JObj [("message", JStr text);
                                      ("code", JNum (num 0));
                                      ("data", JUndefined)])])
         | Rejected e => Rejected e
         end
     end)
  /\ (nullish (get message "id") = true ->
      handle payloadOrString handler context = Fulfilled JUndefined).
Proof.
  intros Hc Hreq Hm Hh Hown Hf.
  rewrite (handle_request _ _ _ _ Hc Hreq), (onMessage_named _ _ _ _ _ Hreq Hh Hm).
  rewrite (own_handler_get _ _ _ Hown). simpl. rewrite Hf.
  unfold caught. split; intros ->; simpl; [|reflexivity].
  destruct error as [text|text code data|v]; reflexivity.
Qed.

(** The dispatcher's half of the version check. *)
Lemma onMessage_bad_version handler context message :
  strict_equal_string (get message "jsonrpc") "2.0" = false ->
  onMessage handler context message = Fulfilled invalidRequest.
Proof. unfold onMessage. intros ->. reflexivity. Qed.

(** Every property name of [Object.prototype] reads as a truthy value on a
    plain object. *)
Lemma Object_prototype_truthy properties name :
  name ∈ Object_prototype_names ->
  exists fn,
    Object_prototype properties name = Some fn /\ Property_truthy fn = true.
Proof.
  unfold Object_prototype_names, Object_prototype. intros Hin.
  case_bool_decide as Hm; [eexists; split; reflexivity|].
  apply elem_of_app in Hin as [Hin | Hin]; [contradiction|].
  apply list_elem_of_singleton in Hin as ->.
  eexists; split; reflexivity.
Qed.

Lemma answer_not_methodNotFound id id' (answer : Settled JSValue) :
  match answer with
  | Fulfilled result =>
      Fulfilled (if nullish id then JUndefined else ResultMessage id result)
  | Rejected error => caught id error
  end
  <> Fulfilled (methodNotFound id').
Proof.
  destruct answer as [result|error]; unfold caught;
    destruct (nullish id); simpl; try discriminate.
  destruct error as [text|text code data|v]; try discriminate.
  destruct (ToString v); discriminate.
Qed.

(** What a request for an inherited method is answered with. *)
Lemma handle_inherited payloadOrString message handler context properties
    name fn :
  carries payloadOrString message ->
  is_request message = true ->
  get message "method" = JStr name ->
  resolve_handler handler context = Fulfilled (plain_object properties) ->
  properties !! name = None ->
  Object_prototype properties name = Some fn ->
  Property_truthy fn = true ->
  handle payloadOrString handler context
  = match call fn (get message "params") with
    | Fulfilled result =>
        Fulfilled (if nullish (get message "id") then JUndefined
                   else ResultMessage (get message "id") result)
    | Rejected error => caught (get message "id") error
    end.
Proof.
  intros Hc Hreq Hm Hh Hown Hfn Ht.
  rewrite (handle_request _ _ _ _ Hc Hreq), (onMessage_named _ _ _ _ _ Hreq Hh Hm).
  unfold handler_get. simpl. rewrite Hown, Hfn. simpl. rewrite Ht. reflexivity.
Qed.

(** C9: on a handler map given as a plain object, a method name that is a
    property of [Object.prototype] and not an own property of the map is
    not answered by Method not found: the inherited value is read and
    passes the truthiness test. An inherited method is called on the
    [params] of the message, and the answer carries what the built-in
    returned, or the message of the Error it threw, under the [id] of the
    message (nothing, for a notification); the inherited [__proto__] is an
    object, calling it raises a TypeError, and that is what the answer
    carries. *)
Theorem handle_inherited_method payloadOrString message handler context
    properties name :
  carries payloadOrString message ->
  is_request message = true ->
  get message "method" = JStr name ->
  resolve_handler handler context = Fulfilled (plain_object properties) ->
  name ∈ Object_prototype_names ->
  properties !! name = None ->
  (exists inherited,
     Object_prototype properties name = Some inherited
     /\ Property_truthy inherited = true)
  /\ (forall id,
        handle payloadOrString handler context
        <> Fulfilled
             (JObj [("jsonrpc", JStr "2.0"); ("id", id);
                    ("error", JObj [("code", JNum (num (-32601)));
                                    ("message", JStr "Method not found")])]))
  /\ (name ∈ Object_prototype_methods ->
      (forall result,
         Object_prototype_call name properties (get message "params")
         = Fulfilled result ->
         handle payloadOrString handler context
         = Fulfilled
             (if nullish (get message "id") then JUndefined
              else JObj [("jsonrpc", JStr "2.0"); ("id", get message "id");
                         ("result", result)]))
      /\ (forall text,
            Object_prototype_call name properties (get message "params")
            = Rejected (ThrownError text) ->
            handle payloadOrString handler context
            = Fulfilled
                (if nullish (get message "id") then JUndefined
                 else JObj [("jsonrpc", JStr "2.0"); ("id", get message "id");
                            ("error", JObj [("message", JStr text);
                                            ("code", JNum (num 0));
                                            ("data", JUndefined)])])))
  /\ (name = "__proto__" ->
      handle payloadOrString handler context
      = Fulfilled
          (if nullish (get message "id") then JUndefined
           else JObj [("jsonrpc", JStr "2.0"); ("id", get message "id");
                      ("error", JObj [("message",
                                       JStr "fn.call is not a function");
                                      ("code", JNum (num 0));
                                      ("data", JUndefined)])])).
Proof.
  intros Hc Hreq Hm Hh Hin Hown.
  destruct (Object_prototype_truthy properties name Hin) as (fn & Hfn & Ht).
  pose proof (handle_inherited _ _ _ _ _ _ _ Hc Hreq Hm Hh Hown Hfn Ht)
    as Hhandle.
  split; [eauto|]. split; [|split].
  - intros id. rewrite Hhandle. apply answer_not_methodNotFound.
  - intros Hmethod. unfold Object_prototype in Hfn.
    rewrite bool_decide_eq_true_2 in Hfn by assumption.
    injection Hfn as <-. simpl in Hhandle.
    split; [intros result Hcall | intros text Hcall];
      rewrite Hhandle, Hcall; [reflexivity|].
    unfold caught. destruct (nullish _); reflexivity.
  - intros ->. unfold Object_prototype in Hfn. simpl in Hfn.
    injection Hfn as <-. rewrite Hhandle. simpl.
    unfold caught. destruct (nullish _); reflexivity.
Qed.

(** The answer to one element of a batch of requests. *)
Lemma onMessage_batch_element handler context handlerObj message :
  is_request message = true ->
  resolve_handler handler context = Fulfilled handlerObj ->
  Reading.answerable handlerObj message = true ->
  (forall name,
     ToPropertyKey (get message "method") = Fulfilled name ->
     nullish (get message "id") = true ->
     Property_truthy (handler_get handlerObj name) = true) ->
  exists response,
    onMessage handler context message = Fulfilled response
    /\ if nullish (get message "id") then response = JUndefined
       else is_response response = true
            /\ get response "id" = get message "id".
Proof.
  intros Hreq Hh Ha Hknown. unfold Reading.answerable in Ha.
  rewrite Hreq in Ha.
  destruct (ToPropertyKey (get message "method")) as [name|] eqn:Hk;
    [|discriminate].
  specialize (Hknown name eq_refl).
  rewrite (onMessage_request _ _ _ _ _ Hreq Hh Hk). cbv zeta.
  destruct (Property_truthy _) eqn:Ht.
  - destruct (call _ _) as [result|error].
    + eexists; split; [reflexivity|].
      destruct (nullish _); [reflexivity|]. split; reflexivity.
    + unfold caught. destruct (nullish _); simpl in *;
        [eexists; split; reflexivity|].
      destruct error as [text|text code data|v];
        try (eexists; split; [reflexivity|]; split; reflexivity).
      destruct (ToString v); [|discriminate].
      eexists; split; [reflexivity|]; split; reflexivity.
  - eexists; split; [reflexivity|].
    unfold nullish_coalesce. destruct (nullish _).
    + specialize (Hknown eq_refl). discriminate.
    + split; reflexivity.
Qed.

(** C6 (as amended): for a non-empty batch of answerable requests that
    carry the version tag ['2.0'], in which every notification names a
    method the handler object has, the reply holds one response for each
    element whose [id] is not null, in the order of the batch and with that
    element's [id], and nothing for a notification; when every element is a
    notification, the reply is [undefined]. *)
Theorem handle_batch payloadOrString (batch : list JSValue) handler context
    handlerObj :
  carries payloadOrString (JArr batch) ->
  batch <> [] ->
  Forall (fun message => is_request message = true) batch ->
  resolve_handler handler context = Fulfilled handlerObj ->
  Forall (fun message => Reading.answerable handlerObj message = true) batch ->
  Forall (fun message =>
    forall name,
      ToPropertyKey (get message "method") = Fulfilled name ->
      nullish (get message "id") = true ->
      Property_truthy (handler_get handlerObj name) = true)
    batch ->
  exists responses,
    handle payloadOrString handler context
    = Fulfilled (if bool_decide (responses = []) then JUndefined
                 else JArr responses)
    /\ Forall (fun response => is_response response = true) responses
    /\ List.map (fun response => get response "id") responses
       = List.filter (fun id => negb (nullish id))
           (List.map (fun message => get message "id") batch).
Proof.
  intros Hc Hne Hreqs Hh Hans Hknown.
  assert (Hall : exists answers,
    Promise_all (List.map (onMessage handler context) batch) = Fulfilled answers
    /\ Forall (fun response => is_response response = true)
         (List.filter truthy answers)
    /\ List.map (fun response => get response "id") (List.filter truthy answers)
       = List.filter (fun id => negb (nullish id))
           (List.map (fun message => get message "id") batch)).
  { clear Hc Hne. induction batch as [|message rest IH].
    - exists []. repeat split. constructor.
    - inversion Hreqs as [|? ? Hreq Hreqs']; subst.
      inversion Hans as [|? ? Ha Hans']; subst.
      inversion Hknown as [|? ? Hk Hknown']; subst.
      destruct (IH Hreqs' Hans' Hknown') as (answers & Hanswers & Hshape & Hids).
      destruct (onMessage_batch_element _ _ _ _ Hreq Hh Ha Hk)
        as (r & Hr & Hrid).
      exists (r :: answers). simpl. rewrite Hr, Hanswers.
      split; [reflexivity|].
      destruct (nullish (get message "id")); simpl.
      + subst r. simpl. split; assumption.
      + destruct Hrid as [Hresp Hid].
        rewrite (is_response_truthy _ Hresp). simpl.
        split; [constructor; assumption|]. rewrite Hid, Hids. reflexivity. }
  destruct Hall as (answers & Hanswers & Hshape & Hids).
  exists (List.filter truthy answers). split; [|split; assumption].
  assert (Hdispatch : handle (JArr batch) handler context
    = Fulfilled (if bool_decide (List.filter truthy answers = [])
                 then JUndefined else JArr (List.filter truthy answers))).
  { unfold handle. cbv beta iota zeta. rewrite bool_decide_eq_false_2
      by (destruct batch; [congruence|discriminate]).
    rewrite Hanswers.
    destruct (List.filter truthy answers); cbv zeta.
    - rewrite bool_decide_eq_false_2 by (simpl; lia). reflexivity.
    - rewrite bool_decide_eq_true_2 by (simpl; lia). reflexivity. }
  destruct payloadOrString; simpl in Hc; try discriminate Hc.
  - unfold handle in *. cbv beta iota zeta in *. rewrite Hc. exact Hdispatch.
  - injection Hc as ->. exact Hdispatch.
Qed.

End DispatcherFacts.

(** ** The call tracker *)

Local Open Scope list_scope.

Section CallTrackerFacts.
Context `{RT : Runtime}.
Variable transport : Client.Transport.
Import Client Shape.
Implicit Types (st : State) (message payload id : JSValue).

Lemma pending_get_delete id st :
  pending_get id (pending_delete id st) = None.
Proof.
  unfold pending_get, pending_delete.
  destruct (as_Id id) as [i|]; simpl; [|reflexivity].
  apply lookup_delete_eq.
Qed.

Lemma pending_get_settle id request s st :
  pending_get id (settle request s st) = pending_get id st.
Proof. reflexivity. Qed.

(** A message whose [id] is a key of the table is an object. *)
Lemma pending_get_object message st request :
  pending_get (get message "id") st = Some request ->
  exists fields, message = JObj fields.
Proof. destruct message; simpl; try discriminate. eauto. Qed.

(** Without an entry for its [id], a message changes nothing. *)
Lemma onMessage_unmatched message st :
  pending_get (get message "id") st = None ->
  fst (onMessage message st) = st.
Proof.
  intros Hget. unfold onMessage. rewrite Hget.
  destruct (has_property "result" message) as [[]|]; try reflexivity.
  destruct (default false (has_property "error" message)); [|reflexivity].
  destruct (negb _); reflexivity.
Qed.

Lemma onMessage_unmatched_object fields st :
  pending_get (get (JObj fields) "id") st = None ->
  onMessage (JObj fields) st = (st, None).
Proof.
  intros Hget. unfold onMessage. rewrite Hget.
  destruct (has_property "result" _) as [[]|] eqn:Hr; try reflexivity;
    [|discriminate].
  destruct (default false _); [|reflexivity].
  destruct (negb _); reflexivity.
Qed.

(** What one message does to the table and to the settlements. *)
Lemma onMessage_effect message st :
  let st' := fst (onMessage message st) in
  calls st' = calls st /\ sent st' = sent st /\ batches st' = batches st
  /\ (st' = st
      \/ exists i request,
           as_Id (get message "id") = Some i
           /\ pending st !! i = Some request
           /\ pending st' = delete i (pending st)
           /\ (settlements st' = settlements st
               \/ exists s, settlements st' = settlements st ++ [(request, s)])).
Proof.
  unfold onMessage.
  destruct (has_property "result" message) as [[]|]; simpl; auto.
  - unfold pending_get, pending_delete.
    destruct (as_Id (get message "id")) as [i|] eqn:Hi; simpl; auto.
    destruct (pending st !! i) as [request|] eqn:Hp; simpl; auto.
    repeat split. right. exists i, request. repeat split; eauto.
  - destruct (default false (has_property "error" message)); simpl; auto.
    destruct (negb _); simpl; auto.
    unfold pending_get, pending_delete.
    destruct (as_Id (get message "id")) as [i|] eqn:Hi; simpl; auto.
    destruct (pending st !! i) as [request|] eqn:Hp; simpl; auto.
    destruct (new_RPCError _); simpl; repeat split; right;
      exists i, request; repeat split; eauto.
Qed.

Lemma onMessage_well_tracked message st :
  well_tracked st -> well_tracked (fst (onMessage message st)).
Proof.
  intros [Hfresh Hinj Hnodup Hbound].
  destruct (onMessage_effect message st) as (Hc & _ & _ & Heff).
  destruct Heff as [-> | (i & request & _ & Hp & Hpend & Hset)];
    [constructor; assumption|].
  set (st' := fst (onMessage message st)) in *.
  assert (Hother : forall j p, pending st' !! j = Some p ->
            pending st !! j = Some p /\ p <> request).
  { intros j p. rewrite Hpend. intros [Hne Hj]%lookup_delete_Some.
    split; [assumption|]. intros ->. apply Hne. eapply Hinj; eassumption. }
  destruct (Hfresh _ _ Hp) as [Hlt Hnot].
  unfold settled in *.
  destruct Hset as [Hset | [s Hset]]; constructor; unfold settled;
    rewrite ?Hset, ?Hc, ?fmap_app; simpl.
  - intros j p Hj. destruct (Hother _ _ Hj) as [Hj' _]. eauto.
  - intros j k p Hj Hk. destruct (Hother _ _ Hj), (Hother _ _ Hk). eauto.
  - assumption.
  - assumption.
  - intros j p Hj. destruct (Hother _ _ Hj) as [Hj' Hne].
    destruct (Hfresh _ _ Hj') as [? Hnotp]. split; [assumption|].
    rewrite elem_of_app, list_elem_of_singleton. tauto.
  - intros j k p Hj Hk. destruct (Hother _ _ Hj), (Hother _ _ Hk). eauto.
  - apply NoDup_app. split; [assumption|]. split; [|apply NoDup_singleton].
    intros p Hin ->%list_elem_of_singleton. contradiction.
  - intros p [Hin | ->%list_elem_of_singleton]%elem_of_app; eauto.
Qed.

Lemma forEach_well_tracked messages st :
  well_tracked st -> well_tracked (fst (forEach_onMessage messages st)).
Proof.
  revert st. induction messages as [|message rest IH]; intros st Hwt;
    [assumption|]. simpl.
  pose proof (onMessage_well_tracked message st Hwt) as Hwt'.
  destruct (onMessage message st) as [st' [e|]]; simpl in *; auto.
Qed.

Lemma receive_well_tracked payload st :
  well_tracked st -> well_tracked (fst (receive payload st)).
Proof.
  intros Hwt. destruct payload; simpl;
    auto using onMessage_well_tracked, forEach_well_tracked.
Qed.

(** The table after [callImpl]: one more entry, for the fresh [id]. *)
Lemma callImpl_tracker method params sender st :
  let st' := fst (callImpl transport method params sender st) in
  pending st' = <[IdString (randomUUID (calls st)) := calls st]> (pending st)
  /\ calls st' = S (calls st)
  /\ settlements st' = settlements st.
Proof.
  unfold callImpl. destruct sender; simpl.
  - destruct (send_outcome _ _ _); simpl; auto.
  - auto.
Qed.

Lemma callImpl_well_tracked method params sender st :
  well_tracked st ->
  well_tracked (fst (callImpl transport method params sender st)).
Proof.
  intros [Hfresh Hinj Hnodup Hbound].
  destruct (callImpl_tracker method params sender st) as (Hp & Hc & Hs).
  set (st' := fst (callImpl transport method params sender st)) in *.
  assert (Hnew : forall j p, pending st' !! j = Some p ->
            (p = calls st /\ j = IdString (randomUUID (calls st)))
            \/ (pending st !! j = Some p /\ p < calls st)).
  { intros j p. rewrite Hp. intros [[<- <-] | [_ Hj]]%lookup_insert_Some; auto.
    right. split; [assumption|]. apply (Hfresh _ _ Hj). }
  constructor; unfold settled in *; rewrite ?Hs, ?Hc.
  - intros j p Hj. destruct (Hnew _ _ Hj) as [[-> _] | [Hj' Hlt]].
    + split; [lia|]. intros Hin%Hbound. lia.
    + split; [lia|]. apply (Hfresh _ _ Hj').
  - intros j k p Hj Hk.
    destruct (Hnew _ _ Hj) as [[-> ->] | [Hj' ?]],
             (Hnew _ _ Hk) as [[? ->] | [Hk' ?]]; try lia; eauto.
  - assumption.
  - intros p Hin%Hbound. lia.
Qed.

(** The other operations leave the table and the settlements alone. *)
Lemma well_tracked_same st st' :
  pending st' = pending st -> calls st' = calls st ->
  settlements st' = settlements st ->
  well_tracked st -> well_tracked st'.
Proof.
  intros Hp Hc Hs [Hfresh Hinj Hnodup Hbound].
  constructor; unfold settled in *; rewrite ?Hp, ?Hc, ?Hs; assumption.
Qed.

Lemma step_well_tracked st op :
  well_tracked st -> well_tracked (step transport st op).
Proof.
  intros Hwt.
  destruct op as [method params|method params| |batch method params
                 |batch method params|batch|payload| ]; cbn [step].
  - apply callImpl_well_tracked, Hwt.
  - eapply well_tracked_same; [..|exact Hwt]; reflexivity.
  - eapply well_tracked_same; [..|exact Hwt]; reflexivity.
  - apply callImpl_well_tracked, Hwt.
  - eapply well_tracked_same; [..|exact Hwt]; reflexivity.
  - unfold flush. case_bool_decide; [|assumption].
    eapply well_tracked_same; [..|exact Hwt]; reflexivity.
  - apply receive_well_tracked, Hwt.
  - assumption.
Qed.

Lemma createClient_well_tracked : well_tracked createClient.
Proof.
  constructor; unfold settled; simpl.
  - intros i p Hi. rewrite lookup_empty in Hi. discriminate.
  - intros i j p Hi. rewrite lookup_empty in Hi. discriminate.
  - constructor.
  - intros p Hin. inversion Hin.
Qed.

Lemma run_well_tracked ops st :
  well_tracked st -> well_tracked (run transport ops st).
Proof.
  revert st. induction ops as [|op ops IH]; intros st Hwt; [assumption|].
  simpl. apply IH, step_well_tracked, Hwt.
Qed.

(** The two replies, when the [id] has an entry. *)
Lemma onMessage_result message st request :
  has_property "result" message = Some true ->
  pending_get (get message "id") st = Some request ->
  onMessage message st
  = (settle request (Resolve (get message "result"))
       (pending_delete (get message "id") st), None).
Proof. unfold onMessage. intros -> ->. reflexivity. Qed.

Lemma onMessage_error message st request :
  has_property "result" message = Some false ->
  has_property "error" message = Some true ->
  pending_get (get message "id") st = Some request ->
  onMessage message st
  = match new_RPCError (get message "error") with
    | Fulfilled e =>
        (settle request (Reject e) (pending_delete (get message "id") st), None)
    | Rejected e => (pending_delete (get message "id") st, Some e)
    end.
Proof.
  unfold onMessage. intros -> -> Hget. rewrite Hget. simpl.
  assert (nullish (get message "id") = false) as ->; [|reflexivity].
  unfold pending_get in Hget. destruct (get message "id"); simpl in *; congruence.
Qed.

Lemma onMessage_other message st :
  has_property "result" message = Some false ->
  has_property "error" message = Some false ->
  onMessage message st = (st, None).
Proof. unfold onMessage. intros -> ->. reflexivity. Qed.

(** C7: in every state a client can reach, a message whose [id] has an
    entry in the pending table and which has a [result] (or else an [error])
    member removes the entry and then resolves (or rejects) the promise of
    that entry; afterwards the [id] has no entry, and any further message
    with that [id] changes nothing. A message whose [id] is null or has no
    entry changes nothing. No promise is ever settled twice. *)
Theorem pending_call_settled_at_most_once ops message :
  let st := run transport ops createClient in
  let id := get message "id" in
  let st' := fst (onMessage message st) in
  NoDup (settled st')
  /\ match pending_get id st with
     | Some request =>
         (has_property "result" message = Some true ->
          onMessage message st
          = (settle request (Resolve (get message "result"))
               (pending_delete id st), None))
         /\ (has_property "result" message = Some false ->
             has_property "error" message = Some true ->
             forall e, new_RPCError (get message "error") = Fulfilled e ->
             onMessage message st
             = (settle request (Reject e) (pending_delete id st), None))
         /\ (is_reply_message message = true ->
             pending_get id st' = None
             /\ forall message',
                  get message' "id" = id ->
                  onMessage message' st' = (st', None))
         /\ (is_reply_message message = false -> st' = st)
     | None => st' = st
     end.
Proof.
  intros st id st'. split.
  { apply settled_once, onMessage_well_tracked, run_well_tracked,
      createClient_well_tracked. }
  destruct (pending_get id st) as [request|] eqn:Hget;
    [|apply onMessage_unmatched, Hget].
  destruct (pending_get_object _ _ _ Hget) as [fields ->].
  assert (Hid : nullish id = false).
  { unfold pending_get in Hget. destruct id; simpl in *; congruence. }
  assert (Hagain : forall st1, pending_get id st1 = None ->
            forall message', get message' "id" = id ->
            onMessage message' st1 = (st1, None)).
  { intros st1 Hnone message' Hid'.
    assert (exists fields', message' = JObj fields') as [fields' ->].
    { rewrite <- Hid' in Hid. clear Hid'.
      destruct message'; simpl in Hid; try discriminate. eauto. }
    apply onMessage_unmatched_object. rewrite Hid'. exact Hnone. }
  subst st'. unfold is_reply_message.
  destruct (has_property "result" (JObj fields)) as [[]|] eqn:Hres;
    [| |discriminate].
  - rewrite (onMessage_result _ _ _ Hres Hget). fold id. simpl.
    repeat split; try discriminate.
    + apply pending_get_delete.
    + apply Hagain, pending_get_delete.
  - destruct (has_property "error" (JObj fields)) as [[]|] eqn:Herr;
      [| |discriminate].
    + rewrite (onMessage_error _ _ _ Hres Herr Hget). fold id.
      destruct (new_RPCError _) as [e|te]; simpl.
      * repeat split; try discriminate.
        -- intros _ _ e' [= <-]. reflexivity.
        -- apply pending_get_delete.
        -- apply Hagain, pending_get_delete.
      * repeat split; try discriminate.
        -- apply pending_get_delete.
        -- apply Hagain, pending_get_delete.
    + rewrite (onMessage_other _ _ Hres Herr). simpl.
      repeat split; discriminate.
Qed.

(** C8: on an accumulator made by [createBatch], [call] and [notify] hand
    nothing to the transport and append their message to the buffer;
    [flush] on a buffer that is not empty hands the transport one payload,
    the array of the buffered messages in the order they were added, and
    leaves the buffer empty whatever [send] does; [flush] on an empty buffer
    does nothing. [createBatch] itself sends nothing and starts from an
    empty buffer. *)
Theorem batch_sends_on_flush st batch buffer method params :
  batches st !! batch = Some buffer ->
  (let st' := fst (batch_call transport batch method params st) in
   sent st' = sent st
   /\ batches st' !! batch
      = Some (buffer ++ [call_message (randomUUID (calls st)) method params]))
  /\ (let st' := fst (batch_notify transport batch method params st) in
      sent st' = sent st
      /\ batches st' !! batch = Some (buffer ++ [notify_message method params]))
  /\ (let st' := fst (flush transport batch st) in
      if bool_decide (buffer = []) then flush transport batch st = (st, None)
      else sent st' = sent st ++ [JArr buffer]
           /\ batches st' !! batch = Some [])
  /\ (let '(st', fresh) := createBatch st in
      sent st' = sent st /\ batches st' !! fresh = Some []).
Proof.
  intros Hb. repeat split.
  - simpl. rewrite list_lookup_alter_eq, Hb. reflexivity.
  - simpl. rewrite list_lookup_alter_eq, Hb. reflexivity.
  - unfold flush. rewrite Hb. simpl. case_bool_decide as Hnil.
    + subst buffer. simpl. reflexivity.
    + rewrite bool_decide_eq_true_2
        by (destruct buffer; [congruence|discriminate]).
      simpl. split; [reflexivity|].
      apply list_lookup_insert_eq. eapply lookup_lt_Some, Hb.
  - simpl. rewrite lookup_app_r by lia. rewrite Nat.sub_diag. reflexivity.
Qed.





(** C3 (as amended): the dispatcher answers a message whose version tag is
    missing or is not ['2.0'] by Invalid Request with [id: null]; the
    receive path of the call tracker does not read the tag: it treats such
    a message exactly as it treats the same message under any other tag,
    ['2.0'] included, so a reply whose [id] is pending settles the call. *)
Theorem version_tag_checked_by_dispatcher_only {Context : Type}
    (handler : Server.Handler Context) (context : Context)
    payloadOrString message st :
  strict_equal_string (get message "jsonrpc") "2.0" = false ->
  Server.onMessage handler context message = Fulfilled Server.invalidRequest
  /\ (carries payloadOrString message ->
      (forall elements, message <> JArr elements) ->
      Server.handle payloadOrString handler context
      = Fulfilled Server.invalidRequest)
  /\ forall version,
       Client.onMessage (with_version version message) st
       = Client.onMessage message st.
Proof.
  intros Hbad. split; [apply onMessage_bad_version, Hbad|]. split.
  - intros Hc Harr. rewrite (handle_single _ _ _ _ Hc Harr).
    apply onMessage_bad_version, Hbad.
  - intros version. destruct message; reflexivity.
Qed.

End CallTrackerFacts.

(** ** The theorems at the inputs of the test suites *)

Section Examples.
Import Server Client Shape Example.

(** C1 (the code at the failing input): a notification, a request without
    an [id], that names a method the handler map does not have is not
    dropped: [handle] answers it with a Method not found error whose [id]
    is null. *)
Theorem unknown_method_notification_is_answered :
  handle (JObj [("jsonrpc", JStr "2.0"); ("method", JStr "nonExistentMethod")])
    (HandlerMap mockHandler) tt
  = Fulfilled
      (JObj [("jsonrpc", JStr "2.0"); ("id", JNull);
             ("error", JObj [("code", JNum (num (-32601)));
                             ("message", JStr "Method not found")])]).
Proof. vm_compute. reflexivity. Qed.

(** With an [id], the same request gets the error under that [id]. *)
Example unknown_method_call :
  handle (request (JNum (num 1)) "nonExistentMethod" JUndefined)
    (HandlerMap mockHandler) tt
  = Fulfilled (methodNotFound (JNum (num 1))).
Proof. vm_compute. reflexivity. Qed.

(** The same notification alone in a batch: the reply is an array, not
    [undefined]. *)
Example unknown_method_notification_in_batch :
  handle (JArr [notification "nonExistentMethod" JUndefined])
    (HandlerMap mockHandler) tt
  = Fulfilled (JArr [methodNotFound JNull]).
Proof. vm_compute. reflexivity. Qed.

(** C2 (counterexample): a handler factory that throws makes the promise of
    [handle] reject with what the factory threw. *)
Lemma handle_rejects_when_factory_throws :
  handle (request (JNum (num 1)) "add" (xy 1 2))
    (HandlerFactory (fun _ : unit => Rejected (ThrownError "no session"))) tt
  = Rejected (ThrownError "no session")
  /\ ~ exists reply,
         handle (request (JNum (num 1)) "add" (xy 1 2))
           (HandlerFactory (fun _ : unit => Rejected (ThrownError "no session")))
           tt
         = Fulfilled reply.
Proof. split; [reflexivity|]. intros [reply Hreply]. discriminate Hreply. Qed.

(** The two other ways in which the promise of [handle] rejects: a
    [method] that cannot be made a property key, and a handler that throws
    a value that has no string (below, for C5). *)
Example handle_rejects_on_unprintable_method :
  handle (JObj [("jsonrpc", JStr "2.0"); ("id", JNum (num 1));
                ("method", Fixture.unprintable)])
    (HandlerMap mockHandler) tt
  = Rejected TypeError_primitive.
Proof. reflexivity. Qed.

Lemma handle_fulfilled_witness :
  resolve_handler (HandlerMap mockHandler) tt = Fulfilled mockHandler
  /\ Reading.answerable mockHandler
       (request (JNum (num 0)) "throwsBasicError" JUndefined) = true
  /\ exists reply,
       handle (request (JNum (num 0)) "throwsBasicError" JUndefined)
         (HandlerMap mockHandler) tt = Fulfilled reply
       /\ is_reply reply = true.
Proof.
  split; [reflexivity|]. split; [reflexivity|].
  apply (handle_fulfilled (request (JNum (num 0)) "throwsBasicError" JUndefined)
           (HandlerMap mockHandler) tt mockHandler eq_refl).
  intros payload Hc. simpl in Hc. subst payload. repeat constructor.
Defined.

(** C3 (counterexample): a result message tagged ['1.0'] is not rejected by
    the call tracker: it settles the pending call with the same [id]. *)
Lemma receive_settles_under_wrong_version :
  let message :=
    JObj [("jsonrpc", JStr "1.0"); ("id", JStr "1"); ("result", JNum (num 3))] in
  strict_equal_string (get message "jsonrpc") "2.0" = false
  /\ pending one_call !! IdString "1" = Some 0
  /\ settlements one_call = []
  /\ settlements (fst (receive message one_call))
     = [(0, Resolve (JNum (num 3)))]
  /\ pending (fst (receive message one_call)) !! IdString "1" = None.
Proof. vm_compute. repeat split; reflexivity. Qed.

Lemma version_tag_checked_by_dispatcher_only_witness :
  let message := JObj [("id", JStr "1"); ("result", JNum (num 3))] in
  strict_equal_string (get message "jsonrpc") "2.0" = false
  /\ handle message (HandlerMap mockHandler) tt = Fulfilled invalidRequest
  /\ Client.onMessage (with_version (JStr "2.0") message) one_call
     = Client.onMessage message one_call.
Proof.
  intros message.
  pose proof (version_tag_checked_by_dispatcher_only
                (HandlerMap mockHandler) tt message message one_call eq_refl)
    as (_ & Hhandle & Hclient).
  split; [reflexivity|]. split.
  - apply Hhandle; [reflexivity|discriminate].
  - apply Hclient.
Defined.

(** The examples of server.test.ts for calls and for errors. *)
Lemma handle_known_method_witness :
  handle (request (JStr "test-id") "add" (xy 1 2)) (HandlerMap mockHandler) tt
  = Fulfilled (JObj [("jsonrpc", JStr "2.0"); ("id", JStr "test-id");
                     ("result", JNum (num 3))])
  /\ handle (notification "add" (xy 1 2)) (HandlerMap mockHandler) tt
     = Fulfilled JUndefined.
Proof.
  split.
  - apply (handle_known_method (request (JStr "test-id") "add" (xy 1 2))
             (request (JStr "test-id") "add" (xy 1 2))
             (HandlerMap mockHandler) tt mockHandler "add" add (JNum (num 3)));
      reflexivity.
  - apply (handle_known_method (notification "add" (xy 1 2))
             (notification "add" (xy 1 2))
             (HandlerMap mockHandler) tt mockHandler "add" add (JNum (num 3)));
      reflexivity.
Defined.

(** C5 (counterexample): a handler that throws [{toString: 1}] on a
    request with an [id] is not answered by an ErrorMessage: ['' + error]
    throws in the [catch] block, and the promise of [handle] rejects. *)
Lemma handle_rejects_on_unprintable_throw :
  handle (request (JNum (num 1)) "throwsObject" JUndefined)
    (HandlerMap Fixture.throwingHandler) tt
  = Rejected TypeError_primitive
  /\ ~ exists reply,
         handle (request (JNum (num 1)) "throwsObject" JUndefined)
           (HandlerMap Fixture.throwingHandler) tt
         = Fulfilled reply.
Proof. split; [reflexivity|]. intros [reply Hreply]. discriminate Hreply. Qed.

(** The same handler on a notification: nothing is coerced, nothing is
    answered. *)
Example unprintable_throw_of_notification :
  handle (notification "throwsObject" JUndefined)
    (HandlerMap Fixture.throwingHandler) tt
  = Fulfilled JUndefined.
Proof. reflexivity. Qed.

Lemma handle_throwing_method_witness :
  handle (request (JNum (num 0)) "throwsCustomError" JUndefined)
    (HandlerMap mockHandler) tt
  = Fulfilled
      (JObj [("jsonrpc", JStr "2.0"); ("id", JNum (num 0));
             ("error", JObj [("message", JStr "custom error");
                             ("code", JNum (num 123));
                             ("data", JObj [("foo", JStr "bar")])])])
  /\ handle (notification "throwsCustomError" JUndefined)
       (HandlerMap mockHandler) tt
     = Fulfilled JUndefined.
Proof.
  split.
  - apply (handle_throwing_method
             (request (JNum (num 0)) "throwsCustomError" JUndefined)
             (request (JNum (num 0)) "throwsCustomError" JUndefined)
             (HandlerMap mockHandler) tt mockHandler "throwsCustomError"
             (fun _ => Rejected (ThrownRPCError "custom error"
                (JNum (num 123)) (JObj [("foo", JStr "bar")])))
             (ThrownRPCError "custom error"
                (JNum (num 123)) (JObj [("foo", JStr "bar")])));
      reflexivity.
  - apply (handle_throwing_method
             (notification "throwsCustomError" JUndefined)
             (notification "throwsCustomError" JUndefined)
             (HandlerMap mockHandler) tt mockHandler "throwsCustomError"
             (fun _ => Rejected (ThrownRPCError "custom error"
                (JNum (num 123)) (JObj [("foo", JStr "bar")])))
             (ThrownRPCError "custom error"
                (JNum (num 123)) (JObj [("foo", JStr "bar")])));
      reflexivity.
Defined.

(** C6 (counterexample): a batch whose one element has [id: 5] and the
    version tag ['1.0'] is answered by one response, and that response
    carries [id: null], not the [id] of the element. *)
Lemma batch_reply_without_request_id :
  let element :=
    JObj [("jsonrpc", JStr "1.0"); ("id", JNum (num 5)); ("method", JStr "add");
          ("params", xy 1 2)] in
  handle (JArr [element]) (HandlerMap mockHandler) tt
  = Fulfilled (JArr [invalidRequest])
  /\ get element "id" = JNum (num 5)
  /\ get invalidRequest "id" = JNull
  /\ get invalidRequest "id" <> get element "id".
Proof. repeat split. discriminate. Qed.

(** The batches of server.test.ts: a notification and a call, and two
    notifications. *)
Lemma handle_batch_witness :
  (exists responses,
     handle (JArr [notification "add" (xy 1 2);
                   request (JNum (num 2)) "add" (xy 3 4)])
       (HandlerMap mockHandler) tt
     = Fulfilled (if bool_decide (responses = []) then JUndefined
                  else JArr responses)
     /\ Forall (fun response => is_response response = true) responses
     /\ List.map (fun response => get response "id") responses
        = [JNum (num 2)])
  /\ handle (JArr [notification "add" (xy 1 2); notification "add" (xy 3 4)])
       (HandlerMap mockHandler) tt
     = Fulfilled JUndefined.
Proof.
  split.
  - apply (handle_batch
             (JArr [notification "add" (xy 1 2);
                    request (JNum (num 2)) "add" (xy 3 4)])
             [notification "add" (xy 1 2); request (JNum (num 2)) "add" (xy 3 4)]
             (HandlerMap mockHandler) tt mockHandler).
    + reflexivity.
    + discriminate.
    + repeat constructor.
    + reflexivity.
    + repeat constructor.
    + repeat constructor; intros name Hkey _; simpl in Hkey;
        injection Hkey as <-; reflexivity.
  - reflexivity.
Defined.

(** A call to the inherited [toString]. *)
Lemma handle_inherited_method_witness :
  "toString" ∈ Object_prototype_names
  /\ own mockHandler !! "toString" = None
  /\ handle (request (JNum (num 1)) "toString" JUndefined)
       (HandlerMap mockHandler) tt
     = Fulfilled (JObj [("jsonrpc", JStr "2.0"); ("id", JNum (num 1));
                        ("result", JStr "[object Object]")]).
Proof.
  assert (Hmethod : "toString" ∈ Object_prototype_methods)
    by (unfold Object_prototype_methods;
        repeat (apply list_elem_of_here || apply list_elem_of_further)).
  assert (Hin : "toString" ∈ Object_prototype_names)
    by (apply elem_of_app; left; exact Hmethod).
  split; [exact Hin|]. split; [reflexivity|].
  destruct (handle_inherited_method
              (request (JNum (num 1)) "toString" JUndefined)
              (request (JNum (num 1)) "toString" JUndefined)
              (HandlerMap mockHandler) tt (own mockHandler) "toString"
              eq_refl eq_refl eq_refl eq_refl Hin eq_refl)
    as (_ & _ & Hcalled & _).
  destruct (Hcalled Hmethod) as [Hresult _].
  apply (Hresult (JStr "[object Object]")). reflexivity.
Defined.

(** The inherited [__proto__] is read and cannot be called. *)
Example proto_is_not_a_function :
  handle (request (JNum (num 1)) "__proto__" JUndefined)
    (HandlerMap mockHandler) tt
  = Fulfilled
      (JObj [("jsonrpc", JStr "2.0"); ("id", JNum (num 1));
             ("error", JObj [("message", JStr "fn.call is not a function");
                             ("code", JNum (num 0)); ("data", JUndefined)])]).
Proof. vm_compute. reflexivity. Qed.

Example toString_is_called :
  handle (request (JNum (num 1)) "toString" JUndefined)
    (HandlerMap mockHandler) tt
  = Fulfilled (ResultMessage (JNum (num 1)) (JStr "[object Object]")).
Proof. vm_compute. reflexivity. Qed.

(** The batch of client.test.ts: a notification is buffered, a call
    follows, then the batch is flushed. *)
Lemma batch_sends_on_flush_witness :
  batches one_batch !! 0 = Some [notify_message "add" (xy 1 2)]
  /\ sent (fst (batch_call mockSend 0 "add" (xy 3 4) one_batch)) = []
  /\ sent (fst (flush mockSend 0 one_batch))
     = [JArr [notify_message "add" (xy 1 2)]]
  /\ batches (fst (flush mockSend 0 one_batch)) !! 0 = Some [].
Proof.
  pose proof (batch_sends_on_flush mockSend one_batch 0
                [notify_message "add" (xy 1 2)] "add" (xy 3 4) eq_refl)
    as ((Hcall & _) & _ & Hflush & _).
  split; [reflexivity|]. split; [exact Hcall|]. exact Hflush.
Defined.

(** [handles batching] of client.test.ts: nothing is sent before [flush],
    and [flush] sends the three messages as one array, in order. *)
Example flush_sends_buffer_in_order :
  let buffered :=
    run mockSend [CreateBatch; BatchNotify 0 "add" (xy 1 2);
                  BatchCall 0 "add" (xy 3 4); BatchCall 0 "add" (xy 5 6)]
      createClient in
  sent buffered = []
  /\ sent (fst (flush mockSend 0 buffered))
     = [JArr [notify_message "add" (xy 1 2);
              call_message "1" "add" (xy 3 4);
              call_message "2" "add" (xy 5 6)]]
  /\ batches (fst (flush mockSend 0 buffered)) = [[]].
Proof. vm_compute. repeat split; reflexivity. Qed.

Example flush_empty_batch :
  flush mockSend 0 (fst (createBatch (createClient)))
  = (fst (createBatch createClient), None).
Proof. reflexivity. Qed.



(** The replies of client.test.ts: the second reply with the same [id]
    finds no entry. *)
Example duplicate_reply_is_ignored :
  let reply := JObj [("jsonrpc", JStr "2.0"); ("id", JStr "1");
                     ("result", JNum (num 3))] in
  let st := fst (receive reply one_call) in
  settlements st = [(0, Resolve (JNum (num 3)))]
  /\ receive reply st = (st, None).
Proof. vm_compute. split; reflexivity. Qed.

End Examples.

(** ** More on the dispatcher *)

Section DispatcherMore.
Context `{RT : Runtime}.
Import Server Shape Reading.

(** A message that is not a request is answered without the handler. *)
Lemma onMessage_not_request {Context} (handler : Handler Context) context
    message :
  is_request message = false ->
  onMessage handler context message
  = Fulfilled (if strict_equal_string (get message "jsonrpc") "2.0"
               then JUndefined else invalidRequest).
Proof.
  unfold is_request, onMessage. intros Hreq.
  destruct (strict_equal_string _ _); simpl in *; [|reflexivity].
  rewrite Hreq. reflexivity.
Qed.

(** A text that [JSON.parse] rejects is answered by the Parse error
    whatever the handler; a text that parses to a JSON string is answered
    by Invalid Request; any other text is handled as the value it parses
    to. *)
Lemma handle_text {Context} text (handler : Handler Context) context :
  match JSON_parse text with
  | None => handle (JStr text) handler context = Fulfilled parseError
  | Some (JStr _) =>
      handle (JStr text) handler context = Fulfilled invalidRequest
  | Some payload =>
      handle (JStr text) handler context = handle payload handler context
  end.
Proof.
  unfold handle. destruct (JSON_parse text) as [[]|]; reflexivity.
Qed.

(** X1: when no message of the payload is a request (the text does not
    parse, the batch is empty, the messages lack the version tag or the
    [method] member), the answer of [handle] does not depend on the handler
    or on the context: the handler factory is not called and no handler
    runs. *)
Theorem handle_without_request {Context Context' : Type} payloadOrString
    (handler : Handler Context) (context : Context)
    (handler' : Handler Context') (context' : Context') :
  (forall payload,
     carries payloadOrString payload ->
     Forall (fun message => is_request message = false)
       (payload_messages payload)) ->
  handle payloadOrString handler context
  = handle payloadOrString handler' context'.
Proof.
  intros Hnone.
  assert (Hvalue : forall payload,
    Forall (fun message => is_request message = false)
      (payload_messages payload) ->
    (forall text, payload <> JStr text) ->
    handle payload handler context = handle payload handler' context').
  { intros payload Hall Hstr.
    destruct payload as [| | | |text|elements|fields];
      try (unfold handle; cbv beta iota zeta;
           inversion Hall as [|? ? Hm _]; subst;
           rewrite !(onMessage_not_request _ _ _ Hm); reflexivity).
    - exfalso. eapply Hstr. reflexivity.
    - unfold handle. cbv beta iota zeta. simpl in Hall.
      replace (List.map (onMessage handler' context') elements)
        with (List.map (onMessage handler context) elements); [reflexivity|].
      apply map_ext_Forall. eapply Forall_impl; [exact Hall|].
      intros message Hm. cbv beta.
      rewrite !(onMessage_not_request _ _ _ Hm). reflexivity. }
  destruct payloadOrString as [| | | |text|elements|fields];
    try (apply Hvalue; [apply Hnone; reflexivity|discriminate]).
  pose proof (handle_text text handler context) as H1.
  pose proof (handle_text text handler' context') as H2.
  destruct (JSON_parse text) as [payload|] eqn:Hparse; [|congruence].
  destruct payload as [| | | |s|elements|fields];
    try (rewrite H1, H2; apply Hvalue;
         [apply Hnone; exact Hparse|discriminate]).
  congruence.
Qed.

(** X2: a batch whose every element fails the version check is answered
    element by element: the reply is an array with one Invalid Request
    error per element; only the empty batch is answered by a single
    error. *)
Theorem handle_invalid_batch {Context} payloadOrString (batch : list JSValue)
    (handler : Handler Context) context :
  carries payloadOrString (JArr batch) ->
  Forall (fun message =>
    strict_equal_string (get message "jsonrpc") "2.0" = false) batch ->
  handle payloadOrString handler context
  = Fulfilled match batch with
              | [] => invalidRequest
              | _ => JArr (List.map (fun _ => invalidRequest) batch)
              end.
Proof.
  intros Hc Hbad.
  assert (Hvalue : handle (JArr batch) handler context
    = Fulfilled match batch with
                | [] => invalidRequest
                | _ => JArr (List.map (fun _ => invalidRequest) batch)
                end).
  { destruct batch as [|first rest]; [reflexivity|].
    unfold handle. cbv beta iota zeta.
    rewrite bool_decide_eq_false_2 by discriminate.
    assert (Hall : forall l,
      Forall (fun message =>
        strict_equal_string (get message "jsonrpc") "2.0" = false) l ->
      Promise_all (List.map (onMessage handler context) l)
      = Fulfilled (List.map (fun _ => invalidRequest) l)).
    { induction l as [|m l IH]; intros Hl; [reflexivity|].
      inversion Hl as [|? ? Hm Hl']; subst. simpl.
      rewrite (onMessage_bad_version _ _ _ Hm), (IH Hl'). reflexivity. }
    rewrite (Hall _ Hbad).
    assert (Hfilter : forall l : list JSValue,
      List.filter truthy (List.map (fun _ => invalidRequest) l)
      = List.map (fun _ => invalidRequest) l).
    { induction l as [|m l IH]; [reflexivity|]. simpl. rewrite IH.
      reflexivity. }
    rewrite Hfilter. reflexivity. }
  destruct payloadOrString; simpl in Hc; try discriminate Hc.
  - pose proof (handle_text s handler context) as Htext.
    rewrite Hc in Htext. rewrite Htext. exact Hvalue.
  - injection Hc as ->. exact Hvalue.
Qed.

(** X3: a request with an [id] that is not null, naming a method that is
    neither an own property of the handler object nor, for a plain object,
    a property of [Object.prototype], is answered by the Method not found
    error (code -32601) under that [id]. *)
Theorem handle_method_not_found {Context} payloadOrString message
    (handler : Handler Context) context handlerObj name :
  carries payloadOrString message ->
  is_request message = true ->
  get message "method" = JStr name ->
  resolve_handler handler context = Fulfilled handlerObj ->
  own handlerObj !! name = None ->
  inherits_Object_prototype handlerObj = false
  \/ name ∉ Object_prototype_names ->
  nullish (get message "id") = false ->
  handle payloadOrString handler context
  = Fulfilled (methodNotFound (get message "id")).
Proof.
  intros Hc Hreq Hm Hh Hown Hproto Hid.
  rewrite (handle_request _ _ _ _ Hc Hreq).
  rewrite (onMessage_unknown_method _ _ _ _ name Hreq Hh).
  - unfold nullish_coalesce. rewrite Hid. reflexivity.
  - rewrite Hm. reflexivity.
  - unfold handler_get. rewrite Hown.
    destruct Hproto as [-> | Hnot]; [reflexivity|].
    destruct (inherits_Object_prototype handlerObj); [|reflexivity].
    unfold Object_prototype, Object_prototype_names in *.
    rewrite bool_decide_eq_false_2 by (intros Hin; apply Hnot, elem_of_app; auto).
    rewrite bool_decide_eq_false_2; [reflexivity|].
    intros ->. apply Hnot, elem_of_app. right. apply list_elem_of_singleton.
    reflexivity.
Qed.

(** The [id] of the answer to one message. *)
Lemma onMessage_id {Context} (handler : Handler Context) context message
    response :
  onMessage handler context message = Fulfilled response ->
  response = JUndefined
  \/ truthy response = true
     /\ (get response "id" = JNull
         \/ is_request message = true
            /\ get response "id" = get message "id").
Proof.
  intros Hr. destruct (is_request message) eqn:Hreq.
  - unfold is_request in Hreq. apply andb_true_iff in Hreq as [Hv Hm].
    unfold onMessage in Hr. rewrite Hv, Hm in Hr. simpl in Hr.
    destruct (resolve_handler _ _) as [handlerObj|]; [|discriminate].
    destruct (ToPropertyKey _) as [name|]; [|discriminate].
    destruct (Property_truthy _); simpl in Hr.
    + destruct (call _ _) as [result|error].
      * destruct (nullish _); simpl in Hr; injection Hr as <-;
          [left; reflexivity|]. right. split; auto.
      * unfold caught in Hr. destruct (nullish _); simpl in Hr;
          [injection Hr as <-; left; reflexivity|].
        right.
        destruct error as [text|text code data|v];
          [| |destruct (ToString v); [|discriminate]];
          injection Hr as <-; split; auto.
    + injection Hr as <-. right. split; [reflexivity|].
      unfold nullish_coalesce. destruct (nullish _); simpl; auto.
  - rewrite (onMessage_not_request _ _ _ Hreq) in Hr. injection Hr as <-.
    destruct (strict_equal_string _ _); [left; reflexivity|].
    right. split; [reflexivity|]. left. reflexivity.
Qed.

(** X4: the dispatcher invents no [id]: when the handler object is there
    and every message of the payload is answerable, [handle] is fulfilled,
    and every response in its answer carries either [null] or the [id] of a
    request of the payload; and there is at most one response per message
    of the payload (one for an empty batch). *)
Theorem reply_ids_from_payload {Context} payloadOrString payload
    (handler : Handler Context) context handlerObj :
  carries payloadOrString payload ->
  resolve_handler handler context = Fulfilled handlerObj ->
  Forall (fun message => answerable handlerObj message = true)
    (payload_messages payload) ->
  exists reply,
    handle payloadOrString handler context = Fulfilled reply
    /\ Forall (fun response =>
         get response "id" = JNull
         \/ Exists (fun message =>
              is_request message = true
              /\ get message "id" = get response "id")
              (payload_messages payload))
         (reply_responses reply)
    /\ length (reply_responses reply)
       <= Nat.max 1 (length (payload_messages payload)).
Proof.
  intros Hc Hh Hans.
  assert (Hone : forall message,
    answerable handlerObj message = true ->
    exists reply,
      onMessage handler context message = Fulfilled reply
      /\ Forall (fun response =>
           get response "id" = JNull
           \/ Exists (fun m => is_request m = true
                               /\ get m "id" = get response "id") [message])
           (reply_responses reply)
      /\ length (reply_responses reply) <= 1).
  { intros message Ha.
    destruct (onMessage_answered _ _ _ _ Hh Ha) as (r & Hr).
    exists r. split; [exact Hr|].
    destruct (onMessage_id _ _ _ _ Hr) as [-> | [Ht Hid]];
      [split; [constructor|simpl; lia]|].
    assert (Hresp : reply_responses r = [r]).
    { destruct (onMessage_shape _ _ _ _ Hr) as [-> | Hs]; [discriminate Ht|].
      destruct r; simpl in Hs; try discriminate; reflexivity. }
    rewrite Hresp. split; [|simpl; lia]. constructor; [|constructor].
    destruct Hid as [Hnull | [Hreq Hid]]; [left; exact Hnull|].
    right. constructor. auto. }
  assert (Hbatch : forall elements,
    Forall (fun message => answerable handlerObj message = true) elements ->
    exists answers,
      Promise_all (List.map (onMessage handler context) elements)
      = Fulfilled answers
      /\ Forall (fun response =>
           get response "id" = JNull
           \/ Exists (fun m => is_request m = true
                               /\ get m "id" = get response "id") elements)
           (List.filter truthy answers)
      /\ length (List.filter truthy answers) <= length elements).
  { intros elements Hel.
    induction Hel as [|message rest Ha _ (answers & Hall & Hids & Hlen)].
    - exists []. repeat split; constructor.
    - destruct (onMessage_answered _ _ _ _ Hh Ha) as (r & Hr).
      pose proof (onMessage_id _ _ _ _ Hr) as Hcases.
      exists (r :: answers). simpl. rewrite Hr, Hall. split; [reflexivity|].
      assert (Hrest : Forall (fun response =>
                get response "id" = JNull
                \/ Exists (fun m => is_request m = true
                                    /\ get m "id" = get response "id")
                     (message :: rest))
                (List.filter truthy answers)).
      { eapply Forall_impl; [exact Hids|]. intros response [Hn | Hex]; auto. }
      destruct Hcases as [-> | [Ht Hid]]; simpl; [split; [assumption|lia]|].
      rewrite Ht. simpl. split; [|lia]. constructor; [|assumption].
      destruct Hid as [Hnull | [Hreq Hid]]; auto. }
  assert (Hvalue : forall p, (forall text, p <> JStr text) ->
    Forall (fun message => answerable handlerObj message = true)
      (payload_messages p) ->
    exists reply,
      handle p handler context = Fulfilled reply
      /\ Forall (fun response =>
           get response "id" = JNull
           \/ Exists (fun m => is_request m = true
                               /\ get m "id" = get response "id")
                (payload_messages p))
           (reply_responses reply)
      /\ length (reply_responses reply) <= Nat.max 1 (length (payload_messages p))).
  { intros p Hstr Hp.
    destruct p as [| | | |text|elements|fields];
      try (match goal with
           | |- context [handle ?v _ _] =>
               destruct (Hone v (Forall_inv Hp)) as (reply & Hr & Hids & Hlen)
           end;
           exists reply; unfold handle; cbv beta iota zeta;
           split; [exact Hr|]; split; [exact Hids|simpl; lia]).
    - exfalso. eapply Hstr. reflexivity.
    - unfold handle. cbv beta iota zeta. case_bool_decide as Hempty.
      + exists invalidRequest. split; [reflexivity|].
        split; [|simpl; lia]. constructor; [left; reflexivity|constructor].
      + destruct (Hbatch elements Hp) as (answers & -> & Hids & Hlen).
        cbv zeta. case_bool_decide as Hpos.
        * eexists. split; [reflexivity|]. simpl. split; [exact Hids|lia].
        * exists JUndefined. split; [reflexivity|].
          split; [constructor|simpl; lia]. }
  destruct payloadOrString as [| | | |text|elements|fields];
    simpl in Hc; subst; try (apply Hvalue; [discriminate|assumption]).
  pose proof (handle_text text handler context) as Htext. rewrite Hc in Htext.
  destruct payload as [| | | |s|elements|fields];
    try (rewrite Htext; apply Hvalue; [discriminate|assumption]).
  exists invalidRequest. split; [exact Htext|].
  split; [|simpl; lia]. constructor; [left; reflexivity|constructor].
Qed.

End DispatcherMore.

(** ** More on the call tracker, and the client with the dispatcher *)

Section CallTrackerMore.
Context `{RT : Runtime} {Window : Type}.
Variable transport : Client.Transport.
Import Server Client Shape Reading Transports.
Implicit Types (st : State) (message payload id : JSValue).

(** What [receive] does with the three responses of the dispatcher when
    their [id] has an entry. *)
Lemma receive_ResultMessage id result st request :
  pending_get id st = Some request ->
  receive (ResultMessage id result) st
  = (settle request (Resolve result) (pending_delete id st), None).
Proof.
  intros Hget.
  exact (onMessage_result (ResultMessage id result) st request eq_refl Hget).
Qed.

Lemma receive_ErrorMessage id text code data st request :
  pending_get id st = Some request ->
  receive (ErrorMessage id text code data) st
  = (settle request
       (Reject (ThrownRPCError text (nullish_coalesce code (JNum (num 0))) data))
       (pending_delete id st), None).
Proof.
  intros Hget.
  exact (onMessage_error (ErrorMessage id text code data) st request
           eq_refl eq_refl Hget).
Qed.

Lemma receive_methodNotFound id st request :
  pending_get id st = Some request ->
  receive (methodNotFound id) st
  = (settle request
       (Reject (ThrownRPCError "Method not found" (JNum (num (-32601)))
                  JUndefined))
       (pending_delete id st), None).
Proof.
  intros Hget.
  exact (onMessage_error (methodNotFound id) st request eq_refl eq_refl Hget).
Qed.

Lemma settle_settlements request s st :
  settlements (settle request s st) = settlements st ++ [(request, s)].
Proof. reflexivity. Qed.

Lemma settle_pending request s st :
  pending (settle request s st) = pending st.
Proof. reflexivity. Qed.

Lemma pending_delete_settlements id st :
  settlements (pending_delete id st) = settlements st.
Proof. unfold pending_delete. destruct (as_Id id); reflexivity. Qed.

(** The entry that [call] has just made, and the table without it. *)
Lemma call_entry method params st :
  let uuid := randomUUID (calls st) in
  let st1 := fst (call transport method params st) in
  pending_get (JStr uuid) st1 = Some (calls st)
  /\ settlements st1 = settlements st
  /\ pending (pending_delete (JStr uuid) st1)
     = delete (IdString uuid) (pending st).
Proof.
  intros uuid st1.
  destruct (callImpl_tracker transport method params transport_send st)
    as (Hp & _ & Hs).
  fold (call transport method params st) in Hp, Hs. fold st1 uuid in Hp, Hs.
  change (pending_get (JStr uuid) st1) with (pending st1 !! IdString uuid).
  change (pending (pending_delete (JStr uuid) st1))
    with (delete (IdString uuid) (pending st1)).
  rewrite Hp. split; [apply lookup_insert_eq|]. split; [exact Hs|].
  apply delete_insert_eq.
Qed.

Lemma call_promise method params st :
  send_outcome transport (sent st)
    (call_message (randomUUID (calls st)) method params) = None ->
  snd (call transport method params st) = Follows (calls st).
Proof.
  intros Hsend.
  unfold call, callImpl, apply_sender, call_message, Server.jsonrpc in *.
  simpl. rewrite Hsend. reflexivity.
Qed.

(** The answer of the dispatcher to the message of a call. *)
Lemma handle_call_message {Context} (handler : Handler Context) context
    handlerObj uuid method params :
  resolve_handler handler context = Fulfilled handlerObj ->
  handle (call_message uuid method params) handler context
  = let fn := handler_get handlerObj method in
    if Property_truthy fn then
      match Server.call fn params with
      | Fulfilled result => Fulfilled (ResultMessage (JStr uuid) result)
      | Rejected error => caught (JStr uuid) error
      end
    else Fulfilled (methodNotFound (JStr uuid)).
Proof.
  intros Hh.
  assert (Hreq : is_request (call_message uuid method params) = true)
    by reflexivity.
  rewrite (handle_request (call_message uuid method params)
             (call_message uuid method params) handler context eq_refl Hreq).
  rewrite (onMessage_named handler context handlerObj _ method Hreq Hh eq_refl).
  reflexivity.
Qed.

(** X5: a call over a channel, answered by a handler that returns: the
    server posts one reply, and when the client's listener gets it the
    promise that [call] returned is resolved with the value the handler
    returned on the [params] of the call, and the entry leaves the pending
    table. *)
Theorem call_resolved_over_channel st method params (target : Window)
    (handler : Handler (MessageEvent Window)) (event : MessageEvent Window)
    handlerObj f result :
  send_outcome transport (sent st)
    (call_message (randomUUID (calls st)) method params) = None ->
  data event = call_message (randomUUID (calls st)) method params ->
  resolve_handler handler event = Fulfilled handlerObj ->
  own handlerObj !! method = Some (PFunction f) ->
  f params = Fulfilled result ->
  let st1 := fst (call transport method params st) in
  snd (call transport method params st) = Follows (calls st)
  /\ exists reply,
       createChannelServer_ReplyToTarget target handler event
       = [(target, reply)]
       /\ forall reply_event : MessageEvent Window,
            data reply_event = reply ->
            exists st2,
              createChannelClient reply_event st1 = (st2, None)
              /\ settlements st2
                 = settlements st ++ [(calls st, Resolve result)]
              /\ pending st2
                 = delete (IdString (randomUUID (calls st))) (pending st).
Proof.
  intros Hsend Hdata Hh Hown Hf st1.
  split; [apply call_promise, Hsend|].
  destruct (call_entry method params st) as (Hget & Hs & Hp).
  fold st1 in Hget, Hs, Hp.
  exists (ResultMessage (JStr (randomUUID (calls st))) result). split.
  - unfold createChannelServer_ReplyToTarget.
    rewrite Hdata, (handle_call_message _ _ _ _ _ _ Hh).
    cbv zeta. rewrite (own_handler_get _ _ _ Hown). simpl. rewrite Hf.
    reflexivity.
  - intros reply_event Hreply. unfold createChannelClient. rewrite Hreply.
    rewrite (receive_ResultMessage _ _ _ _ Hget).
    eexists. split; [reflexivity|].
    rewrite settle_settlements, pending_delete_settlements, settle_pending,
      Hs, Hp. auto.
Qed.

(** X6: a call over a channel, answered by a handler that throws or
    rejects: the promise that [call] returned is rejected with an RPCError.
    An RPCError keeps its message and data, and its code unless that is
    null or undefined, which becomes 0; any other Error gives its message
    with code 0; any other value that has a string gives that string with
    code 0. A thrown value that has no string makes the promise of [handle]
    reject: the server posts nothing. In particular an error made by
    [new RPCError(message, opts)] arrives as an equal error. *)
Theorem call_rejected_over_channel st method params (target : Window)
    (handler : Handler (MessageEvent Window)) (event : MessageEvent Window)
    handlerObj f error :
  send_outcome transport (sent st)
    (call_message (randomUUID (calls st)) method params) = None ->
  data event = call_message (randomUUID (calls st)) method params ->
  resolve_handler handler event = Fulfilled handlerObj ->
  own handlerObj !! method = Some (PFunction f) ->
  f params = Rejected error ->
  let st1 := fst (call transport method params st) in
  let arrived text :=
    match error with
    | ThrownRPCError _ code data =>
        ThrownRPCError text (nullish_coalesce code (JNum (num 0))) data
    | _ => ThrownRPCError text (JNum (num 0)) JUndefined
    end in
  snd (call transport method params st) = Follows (calls st)
  /\ (forall text,
        match error with
        | ThrownError message => message = text
        | ThrownRPCError message _ _ => message = text
        | ThrownValue v => ToString v = Fulfilled text
        end ->
        exists reply,
          createChannelServer_ReplyToTarget target handler event
          = [(target, reply)]
          /\ forall reply_event : MessageEvent Window,
               data reply_event = reply ->
               exists st2,
                 createChannelClient reply_event st1 = (st2, None)
                 /\ settlements st2
                    = settlements st ++ [(calls st, Reject (arrived text))]
                 /\ pending st2
                    = delete (IdString (randomUUID (calls st))) (pending st))
  /\ (forall v e,
        error = ThrownValue v -> ToString v = Rejected e ->
        createChannelServer_ReplyToTarget target handler event = [])
  /\ (forall (text : string) opts,
        error = Error.RPCError text opts -> arrived text = error).
Proof.
  intros Hsend Hdata Hh Hown Hf st1 arrived.
  split; [apply call_promise, Hsend|].
  destruct (call_entry method params st) as (Hget & Hs & Hp).
  fold st1 in Hget, Hs, Hp.
  assert (Hhandle :
    handle (data event) handler event
    = caught (JStr (randomUUID (calls st))) error).
  { rewrite Hdata, (handle_call_message _ _ _ _ _ _ Hh).
    cbv zeta. rewrite (own_handler_get _ _ _ Hown). simpl. rewrite Hf.
    reflexivity. }
  split; [|split].
  - intros text Htext.
    exists (ErrorMessage (JStr (randomUUID (calls st))) text
              match error with
              | ThrownRPCError _ code _ => code
              | _ => JNum (num 0)
              end
              match error with
              | ThrownRPCError _ _ data => data
              | _ => JUndefined
              end). split.
    + unfold createChannelServer_ReplyToTarget. rewrite Hhandle.
      unfold caught. simpl.
      destruct error as [message|message code data|v];
        [subst message; reflexivity|subst message; reflexivity|].
      rewrite Htext. reflexivity.
    + intros reply_event Hreply. unfold createChannelClient. rewrite Hreply.
      rewrite (receive_ErrorMessage _ _ _ _ _ _ Hget).
      eexists. split; [reflexivity|].
      rewrite settle_settlements, pending_delete_settlements,
        settle_pending, Hs, Hp.
      subst arrived. destruct error; auto.
  - intros v e -> Hv. unfold createChannelServer_ReplyToTarget.
    rewrite Hhandle. unfold caught. simpl. rewrite Hv. reflexivity.
  - intros text opts ->. subst arrived. unfold Error.RPCError.
    unfold nullish_coalesce at 1.
    destruct (nullish (nullish_coalesce _ _)) eqn:Hn; [|reflexivity].
    unfold nullish_coalesce in Hn. destruct (nullish (get opts "code")) eqn:Hc.
    + discriminate Hn.
    + congruence.
Qed.

(** X7: a call over a channel of a method that the handler object does not
    have (no own property of that name, and no property of
    [Object.prototype] for a plain object): the promise that [call]
    returned is rejected with the RPCError [Method not found], code
    -32601. *)
Theorem unknown_method_rejected_over_channel st method params
    (handler : Handler (MessageEvent Window)) (event : MessageEvent Window)
    handlerObj :
  send_outcome transport (sent st)
    (call_message (randomUUID (calls st)) method params) = None ->
  data event = call_message (randomUUID (calls st)) method params ->
  resolve_handler handler event = Fulfilled handlerObj ->
  Property_truthy (handler_get handlerObj method) = false ->
  let st1 := fst (call transport method params st) in
  snd (call transport method params st) = Follows (calls st)
  /\ exists reply,
       createChannelServer_ReplyToSource handler event
       = [(source event, reply, origin event)]
       /\ forall reply_event : MessageEvent Window,
            data reply_event = reply ->
            exists st2,
              createChannelClient reply_event st1 = (st2, None)
              /\ settlements st2
                 = settlements st
                   ++ [(calls st,
                        Reject (ThrownRPCError "Method not found"
                                  (JNum (num (-32601))) JUndefined))]
              /\ pending st2
                 = delete (IdString (randomUUID (calls st))) (pending st).
Proof.
  intros Hsend Hdata Hh Hfn st1.
  split; [apply call_promise, Hsend|].
  destruct (call_entry method params st) as (Hget & Hs & Hp).
  fold st1 in Hget, Hs, Hp.
  exists (methodNotFound (JStr (randomUUID (calls st)))). split.
  - unfold createChannelServer_ReplyToSource.
    rewrite Hdata, (handle_call_message _ _ _ _ _ _ Hh).
    cbv zeta. rewrite Hfn. reflexivity.
  - intros reply_event Hreply. unfold createChannelClient. rewrite Hreply.
    rewrite (receive_methodNotFound _ _ _ Hget).
    eexists. split; [reflexivity|].
    rewrite settle_settlements, pending_delete_settlements, settle_pending,
      Hs, Hp. auto.
Qed.

(** X8: [notify] registers nothing (the pending table, the settlements and
    the count of calls stay as they are) and hands the transport one
    message without an [id]; a channel server whose handler object has the
    method posts nothing back for it, whether the handler returns or
    throws. *)
Theorem notify_unanswered st method params
    (handler : Handler (MessageEvent Window)) (event : MessageEvent Window)
    handlerObj :
  data event = notify_message method params ->
  resolve_handler handler event = Fulfilled handlerObj ->
  Property_truthy (handler_get handlerObj method) = true ->
  let st1 := fst (notify transport method params st) in
  pending st1 = pending st
  /\ calls st1 = calls st
  /\ settlements st1 = settlements st
  /\ sent st1 = sent st ++ [notify_message method params]
  /\ get (notify_message method params) "id" = JUndefined
  /\ createChannelServer_ReplyToSource handler event = [].
Proof.
  intros Hdata Hh Hfn st1. repeat split.
  unfold createChannelServer_ReplyToSource. rewrite Hdata.
  assert (Hreq : is_request (notify_message method params) = true)
    by reflexivity.
  rewrite (handle_request (notify_message method params)
             (notify_message method params) handler event eq_refl Hreq).
  rewrite (onMessage_named handler event handlerObj _ method Hreq Hh eq_refl).
  cbv zeta. rewrite Hfn.
  destruct (Server.call _ _) as [result|error]; reflexivity.
Qed.

End CallTrackerMore.

(** ** More on [receive] and on the tables of the client *)

Section ReceiveFacts.
Context `{RT : Runtime}.
Variable transport : Client.Transport.
Import Client Shape Reading.
Implicit Types (st : State) (message payload id : JSValue).

(** What a message does depends on the state only through the entry of
    its [id]. *)
Lemma onMessage_action message :
  exists action : option (option Settlement),
    forall st,
      fst (onMessage message st)
      = match action, pending_get (get message "id") st with
        | Some settlement, Some request =>
            settled_entry request (get message "id") settlement st
        | _, _ => st
        end.
Proof.
  unfold onMessage.
  destruct (has_property "result" message) as [[]|].
  - exists (Some (Some (Resolve (get message "result")))). intros st.
    destruct (pending_get _ st); reflexivity.
  - destruct (default false (has_property "error" message));
      [|exists None; reflexivity].
    destruct (negb (nullish (get message "id"))); [|exists None; reflexivity].
    destruct (new_RPCError (get message "error")) as [e|e].
    + exists (Some (Some (Reject e))). intros st.
      destruct (pending_get _ st); reflexivity.
    + exists (Some None). intros st.
      destruct (pending_get _ st); reflexivity.
  - exists None. reflexivity.
Qed.

Lemma settled_entry_pending request id settlement st :
  pending (settled_entry request id settlement st)
  = match as_Id id with
    | Some i => delete i (pending st)
    | None => pending st
    end.
Proof.
  unfold settled_entry, pending_delete.
  destruct settlement; destruct (as_Id id); reflexivity.
Qed.

Lemma settled_entry_settlements request id settlement st :
  settlements (settled_entry request id settlement st)
  = settlements st
    ++ match settlement with Some s => [(request, s)] | None => [] end.
Proof.
  unfold settled_entry, pending_delete.
  destruct settlement; destruct (as_Id id); simpl;
    rewrite ?app_nil_r; reflexivity.
Qed.

Lemma settled_entry_other request id id' settlement st :
  id <> id' ->
  pending_get id' (settled_entry request id settlement st)
  = pending_get id' st.
Proof.
  intros Hne. unfold pending_get. rewrite settled_entry_pending.
  destruct (as_Id id') as [i'|] eqn:Hi'; simpl; [|reflexivity].
  destruct (as_Id id) as [i|] eqn:Hi; [|reflexivity].
  apply lookup_delete_ne. intros ->. apply Hne.
  destruct id, id'; simpl in *; congruence.
Qed.

(** X9: replies to different calls may come in either order: two messages
    with different [id]s leave the same pending table and the same
    settlements, up to the order in which these were made, whichever is
    received first. *)
Theorem replies_in_any_order st message1 message2 :
  get message1 "id" <> get message2 "id" ->
  let st12 := fst (onMessage message2 (fst (onMessage message1 st))) in
  let st21 := fst (onMessage message1 (fst (onMessage message2 st))) in
  pending st12 = pending st21
  /\ settlements st12 ≡ₚ settlements st21.
Proof.
  intros Hne st12 st21. subst st12 st21.
  destruct (onMessage_action message1) as [a1 H1].
  destruct (onMessage_action message2) as [a2 H2].
  rewrite (H1 st), (H2 st), H1, H2.
  set (id1 := get message1 "id") in *. set (id2 := get message2 "id") in *.
  destruct a1 as [s1|], a2 as [s2|];
    destruct (pending_get id1 st) as [r1|] eqn:Hg1;
    destruct (pending_get id2 st) as [r2|] eqn:Hg2;
    rewrite ?settled_entry_other, ?Hg1, ?Hg2 by congruence;
    try (split; reflexivity).
  split.
  - rewrite !settled_entry_pending.
    destruct (as_Id id1), (as_Id id2); try reflexivity. apply delete_delete.
  - rewrite !settled_entry_settlements, <- !app_assoc.
    apply Permutation_app_head, Permutation_app_comm.
Qed.

(** X10: an error message whose [error] member is null or undefined, under
    an [id] that has an entry: the entry is removed, [receive] throws
    before [reject] is called, and the promise is left unsettled; no later
    message can settle it through that [id]. *)
Theorem error_without_body_drops_entry st message request :
  pending_get (get message "id") st = Some request ->
  has_property "result" message = Some false ->
  has_property "error" message = Some true ->
  nullish (get message "error") = true ->
  exists e,
    receive message st = (pending_delete (get message "id") st, Some e)
    /\ settlements (pending_delete (get message "id") st) = settlements st
    /\ pending_get (get message "id") (pending_delete (get message "id") st)
       = None.
Proof.
  intros Hget Hres Herr Hnull.
  assert (Hobj : exists fields, message = JObj fields)
    by (destruct message; simpl in Hres; try discriminate; eauto;
        simpl in Herr; discriminate).
  destruct Hobj as [fields ->]. cbn [receive].
  rewrite (onMessage_error _ _ _ Hres Herr Hget).
  destruct (get (JObj fields) "error"); try discriminate Hnull;
    (eexists; split; [reflexivity|]; split;
     [unfold pending_delete; destruct (as_Id _); reflexivity
     |apply pending_get_delete]).
Qed.

(** X11: a payload, or an element of a batch, that is not an object makes
    [receive] throw; in a batch the elements before it have been processed
    and the elements after it never are. *)
Theorem receive_stops_at_non_object st st1 before message after :
  has_property "result" message = None ->
  forEach_onMessage before st = (st1, None) ->
  (exists e, receive message st = (st, Some e))
  /\ exists e,
       receive (JArr (before ++ message :: after)) st = (st1, Some e).
Proof.
  intros Hprim Hbefore.
  assert (Hone : forall st0, exists e, onMessage message st0 = (st0, Some e)).
  { intros st0. unfold onMessage. rewrite Hprim. eauto. }
  split.
  - destruct message; simpl in Hprim; try discriminate Hprim; apply Hone.
  - cbn [receive]. revert st Hbefore.
    induction before as [|m rest IH]; intros st Hbefore; simpl in *.
    + injection Hbefore as ->. destruct (Hone st1) as [e ->]. eauto.
    + destruct (onMessage m st) as [st' [e|]]; [discriminate Hbefore|].
      apply IH, Hbefore.
Qed.

(** A response object, or an array of them, is processed to the end. *)
Lemma receive_reply_accepted st reply :
  is_reply reply = true ->
  reply <> JUndefined ->
  snd (receive reply st) = None.
Proof.
  intros Hreply Hdef.
  assert (Hone : forall response st0,
    is_response response = true -> snd (onMessage response st0) = None).
  { intros response st0 Hresp.
    destruct response as [| | | | | |fields]; try discriminate Hresp.
    unfold onMessage, is_response in *.
    apply andb_true_iff in Hresp as [_ Hbody]. simpl in *.
    destruct (bool_decide (is_Some (lookup_field "result" fields))); simpl.
    - destruct (pending_get _ st0); reflexivity.
    - simpl in Hbody.
      destruct (bool_decide (is_Some (lookup_field "error" fields)));
        simpl; [|reflexivity].
      destruct (negb _); [|reflexivity].
      destruct (pending_get _ st0); [|reflexivity].
      destruct (default JUndefined (lookup_field "error" fields))
        as [| | | | | |body]; try discriminate Hbody.
      unfold new_RPCError, get.
      destruct (lookup_field "message" body) as [[| | | |text| |]|];
        try discriminate Hbody. reflexivity. }
  destruct reply as [| | | | |responses|fields];
    try (apply Hone; exact Hreply); [congruence|].
  cbn [receive]. simpl in Hreply.
  apply andb_true_iff in Hreply as [_ Hall]. clear Hdef. revert st.
  induction responses as [|response rest IH]; intros st; [reflexivity|].
  simpl in Hall. apply andb_true_iff in Hall as [Hresp Hrest]. simpl.
  pose proof (Hone response st Hresp) as Hsnd.
  destruct (onMessage response st) as [st' [e|]]; [discriminate Hsnd|].
  apply IH, Hrest.
Qed.

(** X12: a well-formed reply never makes [receive] throw: a response
    object (the version tag, an [id], and a [result] or an [error] object
    with a string message and a code), or a non-empty array of such
    objects, is processed to the end, whatever the state of the client. *)
Theorem receive_accepts_replies st reply :
  is_reply reply = true ->
  reply <> JUndefined ->
  snd (receive reply st) = None.
Proof. apply receive_reply_accepted. Qed.

(** X13: accumulators do not share their buffers: [call], [notify] and
    [flush] on one accumulator leave the buffer of every other accumulator
    as it is, and [flush] hands the transport nothing but the buffer of its
    own accumulator. *)
Theorem batches_are_independent st batch other method params :
  batch <> other ->
  batches (fst (batch_call transport batch method params st)) !! other
  = batches st !! other
  /\ batches (fst (batch_notify transport batch method params st)) !! other
     = batches st !! other
  /\ batches (fst (flush transport batch st)) !! other = batches st !! other
  /\ (sent (fst (flush transport batch st)) = sent st
      \/ sent (fst (flush transport batch st))
         = sent st ++ [JArr (default [] (batches st !! batch))]).
Proof.
  intros Hne. repeat split.
  - simpl. apply list_lookup_alter_ne, Hne.
  - simpl. apply list_lookup_alter_ne, Hne.
  - unfold flush. case_bool_decide; [|reflexivity].
    simpl. apply list_lookup_insert_ne, Hne.
  - unfold flush. case_bool_decide; [right|left]; reflexivity.
Qed.

(** The keys of the pending table. *)
Lemma receive_pending_subset payload st i p :
  pending (fst (receive payload st)) !! i = Some p ->
  pending st !! i = Some p.
Proof.
  assert (Hone : forall message st0,
    pending (fst (onMessage message st0)) !! i = Some p ->
    pending st0 !! i = Some p).
  { intros message st0.
    destruct (onMessage_effect message st0)
      as (_ & _ & _ & [-> | (j & ? & _ & _ & -> & _)]); [auto|].
    intros [_ H]%lookup_delete_Some. exact H. }
  destruct payload as [| | | | |messages|fields]; cbn [receive];
    try apply Hone.
  revert st. induction messages as [|message rest IH]; intros st; [auto|].
  simpl. pose proof (Hone message st) as Hm.
  destruct (onMessage message st) as [st' [e|]]; simpl in *; auto.
Qed.

Lemma step_keys st op :
  (forall i p, pending st !! i = Some p -> i = IdString (randomUUID p)) ->
  forall i p,
    pending (step transport st op) !! i = Some p ->
    i = IdString (randomUUID p).
Proof.
  intros Hkeys i p.
  destruct op as [method params|method params| |batch method params
                 |batch method params|batch|payload| ]; cbn [step];
    try apply Hkeys.
  - destruct (callImpl_tracker transport method params transport_send st)
      as (Hp & _). unfold call. rewrite Hp.
    intros [[<- <-] | [_ H]]%lookup_insert_Some; auto.
  - destruct (callImpl_tracker transport method params (addToBatch batch) st)
      as (Hp & _). unfold batch_call. rewrite Hp.
    intros [[<- <-] | [_ H]]%lookup_insert_Some; auto.
  - unfold flush. case_bool_decide; apply Hkeys.
  - intros H%receive_pending_subset. auto.
Qed.

Lemma run_keys ops st :
  (forall i p, pending st !! i = Some p -> i = IdString (randomUUID p)) ->
  forall i p,
    pending (run transport ops st) !! i = Some p ->
    i = IdString (randomUUID p).
Proof.
  revert st. induction ops as [|op ops IH]; intros st Hkeys; [exact Hkeys|].
  simpl. apply IH, step_keys, Hkeys.
Qed.

(** X14: in every state a client can reach, each key of the pending table
    is the UUID string that was drawn for the promise it holds; so a
    message whose [id] is a number, or anything but such a string, never
    settles a call. *)
Theorem pending_keys_are_uuids ops message :
  let st := run transport ops createClient in
  (forall i p, pending st !! i = Some p ->
     i = IdString (randomUUID p) /\ p < calls st)
  /\ ((forall n, get message "id" <> JStr (randomUUID n)) ->
      fst (onMessage message st) = st).
Proof.
  intros st.
  assert (Hkeys : forall i p, pending st !! i = Some p ->
            i = IdString (randomUUID p)).
  { apply run_keys. intros i p Hi. simpl in Hi. rewrite lookup_empty in Hi.
    discriminate Hi. }
  split.
  - intros i p Hi. split; [apply Hkeys, Hi|].
    eapply (pending_unsettled st), Hi.
    Unshelve. apply run_well_tracked, createClient_well_tracked.
  - intros Hid. apply onMessage_unmatched. unfold pending_get.
    destruct (as_Id (get message "id")) as [i|] eqn:Hi; [|reflexivity].
    simpl. destruct (pending st !! i) as [p|] eqn:Hp; [|reflexivity].
    exfalso. apply (Hid p). rewrite (Hkeys _ _ Hp) in Hi.
    destruct (get message "id"); simpl in Hi; congruence.
Qed.

(** A list of distinct numbers below [n] has at most [n] elements. *)
Lemma NoDup_below (l : list nat) n :
  NoDup l -> (forall x, x ∈ l -> x < n) -> length l <= n.
Proof.
  intros Hnd Hlt. transitivity (length (seq 0 n)); [|rewrite length_seq; lia].
  apply submseteq_length, NoDup_submseteq; [exact Hnd|].
  intros x Hx. apply elem_of_seq. specialize (Hlt x Hx). lia.
Qed.

(** X15: in every state a client can reach, the pending entries and the
    settlements made so far together number at most the calls made: a call
    is pending or settled, never both, and never settled twice. *)
Theorem pending_and_settled_bounded ops :
  let st := run transport ops createClient in
  size (pending st) + length (settlements st) <= calls st.
Proof.
  intros st.
  assert (Hwt : well_tracked st)
    by apply run_well_tracked, createClient_well_tracked.
  destruct Hwt as [Hfresh Hinj Hnodup Hbound]. unfold settled in *.
  rewrite <- length_map_to_list.
  rewrite <- (length_fmap snd (map_to_list (pending st))).
  rewrite <- (length_fmap fst (settlements st)), <- length_app.
  apply NoDup_below.
  - apply NoDup_app. split; [|split; [|exact Hnodup]].
    + apply NoDup_fmap_2_strong; [|apply NoDup_map_to_list].
      intros [i p] [j q] Hi Hj Heq. simpl in Heq. subst q.
      apply elem_of_map_to_list in Hi, Hj. f_equal. eapply Hinj; eassumption.
    + intros p Hp. apply list_elem_of_fmap in Hp as ([i q] & -> & Hi).
      apply elem_of_map_to_list in Hi. apply (Hfresh _ _ Hi).
  - intros p [Hp | Hp]%elem_of_app.
    + apply list_elem_of_fmap in Hp as ([i q] & -> & Hi).
      apply elem_of_map_to_list in Hi. apply (Hfresh _ _ Hi).
    + apply Hbound, Hp.
Qed.

(** X23: in every state a client can reach, [call] hands the transport
    exactly one message, the request with the given method and params
    under the UUID just drawn; it registers that UUID for a promise that
    has never been settled, and leaves every other entry of the pending
    table as it is; the promise it returns is that promise when [send]
    returns, and is rejected with what [send] throws otherwise. *)
Theorem call_registers_fresh_promise ops method params :
  let st := run transport ops createClient in
  let uuid := randomUUID (calls st) in
  let st' := fst (call transport method params st) in
  sent st' = sent st ++ [call_message uuid method params]
  /\ pending st' !! IdString uuid = Some (calls st)
  /\ (calls st ∉ settled st')
  /\ snd (call transport method params st)
     = match send_outcome transport (sent st)
               (call_message uuid method params) with
       | None => Follows (calls st)
       | Some e => RejectedWith e
       end
  /\ forall i, i <> IdString uuid -> pending st' !! i = pending st !! i.
Proof.
  intros st uuid st'.
  assert (Hwt : well_tracked st)
    by apply run_well_tracked, createClient_well_tracked.
  destruct (callImpl_tracker transport method params transport_send st)
    as (Hp & Hc & Hs).
  fold (call transport method params st) in Hp, Hc, Hs.
  fold st' uuid in Hp, Hc, Hs.
  split.
  { subst st'. unfold call, callImpl, apply_sender.
    destruct (send_outcome _ _ _); reflexivity. }
  split; [rewrite Hp; apply lookup_insert_eq|].
  split; [|split].
  - unfold settled. rewrite Hs. intros Hin.
    apply (settled_created st Hwt) in Hin. lia.
  - subst uuid. unfold call, callImpl, apply_sender, call_message,
      Server.jsonrpc. simpl.
    destruct (send_outcome _ _ _); reflexivity.
  - intros i Hi. rewrite Hp. apply lookup_insert_ne. congruence.
Qed.

End ReceiveFacts.

(** ** The framing of the stream transport *)

Section StreamFacts.
Context `{RT : Runtime}.
Variable JSON_stringify : JSValue -> string.
Import Reading Transports.
Implicit Types (text buffer chunk rest : string) (lines : list string).

Local Open Scope string_scope.

Lemma text_app_String c text1 text2 :
  String c text1 ++ text2 = String c (text1 ++ text2).
Proof. reflexivity. Qed.

Lemma text_app_empty text : "" ++ text = text.
Proof. reflexivity. Qed.

Lemma text_app_assoc text1 text2 text3 :
  (text1 ++ text2) ++ text3 = text1 ++ (text2 ++ text3).
Proof.
  induction text1 as [|c text1 IH]; [reflexivity|].
  rewrite !text_app_String, IH. reflexivity.
Qed.

Lemma text_app_nil text : text ++ "" = text.
Proof.
  induction text as [|c text IH]; [reflexivity|].
  rewrite text_app_String, IH. reflexivity.
Qed.

Lemma split_newline_not_nil text : split_newline text <> [].
Proof.
  destruct text as [|c text]; simpl; [discriminate|].
  destruct (Ascii.eqb c newline); [discriminate|].
  destruct (split_newline text); discriminate.
Qed.

Lemma take_lines_buffer buffer chunk :
  take_lines buffer chunk = take_lines "" (buffer ++ chunk).
Proof. reflexivity. Qed.

Lemma take_lines_empty : take_lines "" "" = ([], "").
Proof. reflexivity. Qed.

(** The lines of a text, from those of the text without its first
    character. *)
Lemma take_lines_String c text :
  take_lines "" (String c text)
  = let '(lines, rest) := take_lines "" text in
    if Ascii.eqb c newline then ("" :: lines, rest)
    else match lines with
         | [] => ([], String c rest)
         | first :: others => (String c first :: others, rest)
         end.
Proof.
  unfold take_lines, pop. rewrite !text_app_empty. simpl.
  pose proof (split_newline_not_nil text) as Hne.
  destruct (split_newline text) as [|first [|second others]];
    [congruence| |]; destruct (Ascii.eqb c newline); reflexivity.
Qed.

Lemma take_lines_app text1 text2 :
  take_lines "" (text1 ++ text2)
  = let '(lines1, rest1) := take_lines "" text1 in
    let '(lines2, rest2) := take_lines rest1 text2 in
    ((lines1 ++ lines2)%list, rest2).
Proof.
  induction text1 as [|c text1 IH].
  - rewrite take_lines_empty, text_app_empty.
    rewrite (take_lines_buffer "" text2), text_app_empty.
    destruct (take_lines "" text2). reflexivity.
  - rewrite text_app_String, !take_lines_String, IH.
    destruct (take_lines "" text1) as [lines1 rest1].
    destruct (Ascii.eqb c newline) eqn:Hc.
    + destruct (take_lines rest1 text2) as [lines2 rest2]. reflexivity.
    + destruct lines1 as [|first others].
      * rewrite (take_lines_buffer (String c rest1) text2).
        rewrite text_app_String, take_lines_String, <- take_lines_buffer, Hc.
        destruct (take_lines rest1 text2) as [[|second lines2] rest2];
          reflexivity.
      * destruct (take_lines rest1 text2) as [lines2 rest2]. reflexivity.
Qed.

(** Neither the lines nor the buffer hold a newline, and together they are
    the text. *)
Lemma take_lines_sound text :
  let '(lines, rest) := take_lines "" text in
  contains_newline rest = false
  /\ Forall (fun line => contains_newline line = false) lines
  /\ concat_texts (List.map (fun line => line ++ String newline "") lines)
     ++ rest = text.
Proof.
  induction text as [|c text IH]; [repeat split; constructor|].
  rewrite take_lines_String.
  destruct (take_lines "" text) as [lines rest].
  destruct IH as (Hrest & Hlines & Htext).
  destruct (Ascii.eqb c newline) eqn:Hc.
  - apply Ascii.eqb_eq in Hc as ->. repeat split; auto.
    cbn [List.map concat_texts foldr].
    repeat (rewrite text_app_String || rewrite text_app_empty).
    fold (concat_texts
            (List.map (fun line => line ++ String newline "") lines)).
    rewrite Htext. reflexivity.
  - destruct lines as [|first others].
    + cbn [List.map concat_texts foldr contains_newline] in *.
      rewrite text_app_empty in *. rewrite Hc, Hrest, Htext. auto.
    + inversion Hlines as [|? ? Hfirst Hothers]; subst.
      split; [assumption|]. split.
      * constructor; [|assumption]. simpl. rewrite Hc, Hfirst. reflexivity.
      * cbn [List.map concat_texts foldr].
        repeat rewrite text_app_String. reflexivity.
Qed.

Lemma take_lines_no_newline text :
  contains_newline text = false -> take_lines "" text = ([], text).
Proof.
  induction text as [|c text IH]; intros Hnone; [reflexivity|].
  simpl in Hnone. apply orb_false_iff in Hnone as [Hc Hnone].
  rewrite take_lines_String, (IH Hnone), Hc. reflexivity.
Qed.

(** A text without a newline, followed by a newline, is one more line. *)
Lemma take_lines_line line text :
  contains_newline line = false ->
  take_lines "" (line ++ String newline text)
  = let '(lines, rest) := take_lines "" text in (line :: lines, rest).
Proof.
  induction line as [|c line IH]; intros Hline.
  - rewrite text_app_empty, take_lines_String, Ascii.eqb_refl. reflexivity.
  - simpl in Hline. apply orb_false_iff in Hline as [Hc Hline].
    rewrite text_app_String, take_lines_String, (IH Hline), Hc.
    destruct (take_lines "" text). reflexivity.
Qed.

Lemma feed_lines_concat chunks buffer :
  contains_newline buffer = false ->
  feed_lines chunks buffer = take_lines buffer (concat_texts chunks).
Proof.
  revert buffer. induction chunks as [|chunk chunks IH]; intros buffer Hbuffer.
  - cbn [feed_lines concat_texts foldr].
    rewrite take_lines_buffer, text_app_nil, (take_lines_no_newline _ Hbuffer).
    reflexivity.
  - cbn [feed_lines concat_texts foldr].
    fold (concat_texts chunks).
    rewrite (take_lines_buffer buffer (chunk ++ concat_texts chunks)).
    rewrite <- text_app_assoc, take_lines_app, <- take_lines_buffer.
    pose proof (take_lines_sound (buffer ++ chunk)) as Hsound.
    rewrite <- take_lines_buffer in Hsound.
    destruct (take_lines buffer chunk) as [lines buffer'].
    destruct Hsound as (Hrest & _). rewrite (IH _ Hrest).
    destruct (take_lines buffer' (concat_texts chunks)). reflexivity.
Qed.

(** X16: the framing of [handleData] loses and invents nothing: after any
    sequence of chunks, the lines it has completed hold no newline, the
    buffer it keeps holds none, and the lines, each followed by a newline,
    followed by the buffer, are the text received so far. *)
Theorem stream_framing_exact chunks buffer :
  contains_newline buffer = false ->
  let '(lines, rest) := feed_lines chunks buffer in
  contains_newline rest = false
  /\ Forall (fun line => contains_newline line = false) lines
  /\ concat_texts (List.map (fun line => line ++ String newline "") lines)
     ++ rest
     = buffer ++ concat_texts chunks.
Proof.
  intros Hbuffer. rewrite (feed_lines_concat _ _ Hbuffer), take_lines_buffer.
  apply take_lines_sound.
Qed.

(** X17: how the stream cuts the text into chunks does not matter: a
    sequence of ['data'] events completes the same lines, in the same
    order, and leaves the same buffer as one event with the whole text. *)
Theorem stream_chunking_independent chunks buffer :
  contains_newline buffer = false ->
  feed_lines chunks buffer = take_lines buffer (concat_texts chunks).
Proof. apply feed_lines_concat. Qed.

Lemma take_lines_written (payloads : list JSValue) :
  Forall (fun payload => contains_newline (JSON_stringify payload) = false)
    payloads ->
  take_lines "" (concat_texts (List.map (write_line JSON_stringify) payloads))
  = (List.map JSON_stringify payloads, "").
Proof.
  induction payloads as [|payload payloads IH]; intros Hall; [reflexivity|].
  inversion Hall as [|? ? Hone Hrest]; subst.
  cbn [List.map concat_texts foldr].
  fold (concat_texts (List.map (write_line JSON_stringify) payloads)).
  unfold write_line at 1.
  rewrite text_app_assoc, text_app_String, text_app_empty.
  rewrite (take_lines_line _ _ Hone), (IH Hrest). reflexivity.
Qed.

(** X18: what [send] writes is read back as written: when no serialized
    payload holds a newline, the payloads written one after the other with
    [JSON.stringify(payload) + '\n'] arrive, however the stream cuts them
    into chunks, as exactly their serialized texts, one line each, and
    nothing stays in the buffer. *)
Theorem stream_round_trip (payloads : list JSValue) chunks :
  Forall (fun payload => contains_newline (JSON_stringify payload) = false)
    payloads ->
  concat_texts chunks
  = concat_texts (List.map (write_line JSON_stringify) payloads) ->
  feed_lines chunks "" = (List.map JSON_stringify payloads, "").
Proof.
  intros Hall Hchunks.
  rewrite (feed_lines_concat chunks "" eq_refl), take_lines_buffer,
    text_app_empty, Hchunks.
  apply take_lines_written, Hall.
Qed.

Lemma receive_lines_app before after (st st1 : Client.State) :
  receive_lines before st = (st1, None) ->
  receive_lines (before ++ after) st = receive_lines after st1.
Proof.
  revert st. induction before as [|line before IH]; intros st Hbefore.
  - simpl in Hbefore. injection Hbefore as ->. reflexivity.
  - simpl in *. destruct (createSocketClient line st) as [st' [failure|]];
      [discriminate Hbefore|]. apply IH, Hbefore.
Qed.

(** X19: on the client, a line that [JSON.parse] rejects stops
    [handleData]: the lines before it have been received, the exception
    leaves the loop, and the lines after it in the same chunk are never
    received, for the buffer has already moved past them. *)
Theorem stream_client_stops_at_bad_line chunk buffer (st st1 : Client.State)
    before bad after rest :
  take_lines buffer chunk = ((before ++ bad :: after)%list, rest) ->
  receive_lines before st = (st1, None) ->
  JSON_parse bad = None ->
  createNodeStreamClient_handleData chunk buffer st
  = (rest, st1, Some (SyntaxError bad)).
Proof.
  intros Htake Hbefore Hbad. unfold createNodeStreamClient_handleData.
  rewrite Htake, (receive_lines_app _ _ _ _ Hbefore). simpl.
  unfold createSocketClient. rewrite Hbad. reflexivity.
Qed.

Lemma server_feed_lines handler chunks buffer :
  createNodeStreamServer_feed JSON_stringify handler chunks buffer
  = let '(lines, final) := feed_lines chunks buffer in
    (final,
     flat_map (fun line =>
       then_post
         (Server.handle (JStr line) (Server.HandlerMap handler) tt)
         (write_line JSON_stringify)) lines).
Proof.
  revert buffer. induction chunks as [|chunk chunks IH]; intros buffer;
    [reflexivity|].
  cbn [createNodeStreamServer_feed feed_lines].
  unfold createNodeStreamServer_handleData.
  destruct (take_lines buffer chunk) as [lines buffer']. rewrite IH.
  destruct (feed_lines chunks buffer') as [more final].
  rewrite flat_map_app. reflexivity.
Qed.

(** X20: on the server too the chunks do not matter: a sequence of ['data']
    events makes the server answer the same lines with the same writes,
    and leaves the same buffer, as one event with the whole text. *)
Theorem stream_server_chunking_independent handler chunks buffer :
  contains_newline buffer = false ->
  createNodeStreamServer_feed JSON_stringify handler chunks buffer
  = createNodeStreamServer_handleData JSON_stringify handler
      (concat_texts chunks) buffer.
Proof.
  intros Hbuffer. rewrite server_feed_lines, (feed_lines_concat _ _ Hbuffer).
  reflexivity.
Qed.

End StreamFacts.

(** ** From the server's listener to the client's *)

Section ServerToClient.
Context `{RT : Runtime}.
Import Server Client Shape Reading Transports.

(** X21: whatever the payload, a channel server whose handler object is
    there posts at most one message, to the source of the event and under
    its origin, and the listener of a channel client, in any state,
    processes that message without throwing. *)
Theorem channel_reply_received {Window : Type}
    (handler : Handler (MessageEvent Window)) (event : MessageEvent Window)
    handlerObj (st : State) :
  resolve_handler handler event = Fulfilled handlerObj ->
  length (createChannelServer_ReplyToSource handler event) <= 1
  /\ forall destination reply targetOrigin,
       (destination, reply, targetOrigin)
         ∈ createChannelServer_ReplyToSource handler event ->
       destination = source event
       /\ targetOrigin = origin event
       /\ forall reply_event : MessageEvent Window,
            data reply_event = reply ->
            snd (createChannelClient reply_event st) = None.
Proof.
  intros Hh. unfold createChannelServer_ReplyToSource, then_post.
  destruct (handle (data event) handler event) as [reply|e] eqn:Hhandle;
    [|split; [simpl; lia|];
      intros destination reply' targetOrigin Hin; inversion Hin].
  pose proof (handle_shape _ _ _ _ Hhandle) as Hshape.
  destruct (truthy reply) eqn:Ht; simpl; (split; [lia|]).
  - intros destination reply' targetOrigin Hin.
    apply list_elem_of_singleton in Hin. injection Hin as -> -> ->.
    repeat split. intros reply_event Hdata. unfold createChannelClient.
    rewrite Hdata. apply receive_reply_accepted; [exact Hshape|].
    intros ->. discriminate Ht.
  - intros destination reply' targetOrigin Hin. inversion Hin.
Qed.

(** X22: a Chrome extension server whose handler object is there calls
    [sendResponse] whenever every message of the payload is answerable,
    with [undefined] for a payload that needs no reply, and the [send] of
    the Chrome extension client takes that response without throwing: it
    skips [undefined] and hands anything else to [receive], which
    processes it to the end. *)
Theorem chrome_response_received {Sender : Type} (handler : Handler Sender)
    payload (sender : Sender) handlerObj (st : State) :
  resolve_handler handler sender = Fulfilled handlerObj ->
  (forall carried, carries payload carried ->
   Forall (fun message => answerable handlerObj message = true)
     (payload_messages carried)) ->
  exists response,
    createChromeExtensionServer handler payload sender = Some response
    /\ snd (createChromeExtensionClient_send response st) = None
    /\ (response = JUndefined ->
        createChromeExtensionClient_send response st = (st, None)).
Proof.
  intros Hh Hans. unfold createChromeExtensionServer.
  destruct (handle_answered payload handler sender handlerObj Hh Hans)
    as (reply & Hhandle).
  pose proof (handle_shape _ _ _ _ Hhandle) as Hshape. rewrite Hhandle.
  exists reply. split; [reflexivity|]. split.
  - unfold createChromeExtensionClient_send.
    destruct (truthy reply) eqn:Ht; [|reflexivity].
    apply receive_reply_accepted; [exact Hshape|].
    intros ->. discriminate Ht.
  - intros ->. reflexivity.
Qed.

End ServerToClient.

(** ** The further theorems at the inputs of the test suites *)

Section MoreExamples.
Import Server Client Shape Reading Transports Example Fixture.

(** [handles invalid request (missing method)] of server.test.ts: the
    answer is the same under a factory that throws. *)
Lemma handle_without_request_witness :
  let message :=
    JObj [("jsonrpc", JStr "2.0"); ("id", JNum (num 1));
          ("params", JArr [JNum (num 1); JNum (num 2)])] in
  handle message
    (HandlerFactory (fun _ : unit => Rejected (ThrownError "no session"))) tt
  = handle message (HandlerMap mockHandler) tt
  /\ handle message (HandlerMap mockHandler) tt = Fulfilled JUndefined.
Proof.
  intros message. split; [|reflexivity].
  apply (handle_without_request message).
  intros payload <-. repeat constructor.
Defined.

(** [handles invalid batch requests] of server.test.ts. *)
Lemma handle_invalid_batch_witness :
  handle (JArr [JNum (num 1); JNum (num 2); JNum (num 3)])
    (HandlerMap mockHandler) tt
  = Fulfilled (JArr [invalidRequest; invalidRequest; invalidRequest]).
Proof.
  apply (handle_invalid_batch
           (JArr [JNum (num 1); JNum (num 2); JNum (num 3)])
           [JNum (num 1); JNum (num 2); JNum (num 3)]
           (HandlerMap mockHandler) tt).
  - reflexivity.
  - repeat constructor.
Defined.

Lemma nonExistentMethod_not_inherited :
  "nonExistentMethod" ∉ Object_prototype_names.
Proof.
  intros Hin. apply list_elem_of_In in Hin. simpl in Hin.
  intuition discriminate.
Qed.

(** [handles method not found error] of server.test.ts. *)
Lemma handle_method_not_found_witness :
  handle (request (JNum (num 1)) "nonExistentMethod" JUndefined)
    (HandlerMap mockHandler) tt
  = Fulfilled (methodNotFound (JNum (num 1))).
Proof.
  apply (handle_method_not_found
           (request (JNum (num 1)) "nonExistentMethod" JUndefined)
           (request (JNum (num 1)) "nonExistentMethod" JUndefined)
           (HandlerMap mockHandler) tt mockHandler "nonExistentMethod");
    try reflexivity.
  right. exact nonExistentMethod_not_inherited.
Defined.

(** [handles mixed batch with notifications and calls] of
    server.test.ts. *)
Lemma reply_ids_from_payload_witness :
  let batch := [notification "add" (xy 1 2);
                request (JNum (num 2)) "add" (xy 3 4)] in
  exists reply,
    handle (JArr batch) (HandlerMap mockHandler) tt = Fulfilled reply
    /\ Forall (fun response =>
         get response "id" = JNull
         \/ Exists (fun message =>
              is_request message = true
              /\ get message "id" = get response "id") batch)
         (reply_responses reply)
    /\ length (reply_responses reply) <= Nat.max 1 (length batch).
Proof.
  intros batch.
  apply (reply_ids_from_payload (JArr batch) (JArr batch)
           (HandlerMap mockHandler) tt mockHandler);
    [reflexivity|reflexivity|repeat constructor].
Defined.

(** [handles calls] of client.test.ts, with the dispatcher at the other end
    of the channel. *)
Lemma call_resolved_over_channel_witness :
  snd (call mockSend "add" (xy 1 2) createClient) = Follows 0
  /\ exists reply,
       createChannelServer_ReplyToTarget "worker" (HandlerMap mockHandler)
         (event (call_message "1" "add" (xy 1 2)))
       = [("worker", reply)]
       /\ forall reply_event : MessageEvent string,
            data reply_event = reply ->
            exists st2,
              createChannelClient reply_event one_call = (st2, None)
              /\ settlements st2 = [] ++ [(0, Resolve (JNum (num 3)))]
              /\ pending st2 = delete (IdString "1") ∅.
Proof.
  apply (call_resolved_over_channel mockSend createClient "add" (xy 1 2)
           "worker" (HandlerMap mockHandler)
           (event (call_message "1" "add" (xy 1 2)))
           mockHandler add (JNum (num 3)));
    reflexivity.
Defined.

(** [handles custom errors] of server.test.ts, seen from the client. *)
Lemma call_rejected_over_channel_witness :
  let thrown :=
    Error.RPCError "custom error"
      (JObj [("code", JNum (num 123)); ("data", JObj [("foo", JStr "bar")])]) in
  exists reply,
    createChannelServer_ReplyToTarget "worker" (HandlerMap mockHandler)
      (event (call_message "1" "throwsCustomError" JUndefined))
    = [("worker", reply)]
    /\ forall reply_event : MessageEvent string,
         data reply_event = reply ->
         exists st2,
           createChannelClient reply_event
             (fst (call mockSend "throwsCustomError" JUndefined createClient))
           = (st2, None)
           /\ settlements st2 = [] ++ [(0, Reject thrown)]
           /\ pending st2 = delete (IdString "1") ∅.
Proof.
  intros thrown.
  pose proof (call_rejected_over_channel mockSend createClient
                "throwsCustomError" JUndefined "worker"
                (HandlerMap mockHandler)
                (event (call_message "1" "throwsCustomError" JUndefined))
                mockHandler (fun _ => Rejected thrown) thrown
                eq_refl eq_refl eq_refl eq_refl eq_refl)
    as (_ & Hreply & _).
  exact (Hreply "custom error" eq_refl).
Defined.

(** A handler that throws [{toString: 1}]: the server posts nothing, and
    the call stays pending. *)
Example unprintable_throw_over_channel :
  createChannelServer_ReplyToTarget "worker" (HandlerMap throwingHandler)
    (event (call_message "1" "throwsObject" JUndefined))
  = [].
Proof. reflexivity. Qed.

Lemma unknown_method_rejected_over_channel_witness :
  exists reply,
    createChannelServer_ReplyToSource (HandlerMap mockHandler)
      (event (call_message "1" "nonExistentMethod" JUndefined))
    = [("page", reply, "https://example.org")]
    /\ forall reply_event : MessageEvent string,
         data reply_event = reply ->
         exists st2,
           createChannelClient reply_event
             (fst (call mockSend "nonExistentMethod" JUndefined createClient))
           = (st2, None)
           /\ settlements st2
              = [] ++ [(0, Reject (ThrownRPCError "Method not found"
                                     (JNum (num (-32601))) JUndefined))]
           /\ pending st2 = delete (IdString "1") ∅.
Proof.
  pose proof (unknown_method_rejected_over_channel mockSend createClient
                "nonExistentMethod" JUndefined (HandlerMap mockHandler)
                (event (call_message "1" "nonExistentMethod" JUndefined))
                mockHandler eq_refl eq_refl eq_refl eq_refl)
    as (_ & Hreply).
  exact Hreply.
Defined.

(** [handles notifications] of client.test.ts and of server.test.ts. *)
Lemma notify_unanswered_witness :
  pending (fst (notify mockSend "add" (xy 1 2) createClient)) = ∅
  /\ sent (fst (notify mockSend "add" (xy 1 2) createClient))
     = [notify_message "add" (xy 1 2)]
  /\ createChannelServer_ReplyToSource (HandlerMap mockHandler)
       (event (notify_message "add" (xy 1 2))) = [].
Proof.
  pose proof (notify_unanswered mockSend createClient "add" (xy 1 2)
                (HandlerMap mockHandler)
                (event (notify_message "add" (xy 1 2)))
                mockHandler eq_refl eq_refl eq_refl)
    as (Hpending & _ & _ & Hsent & _ & Hposts).
  split; [exact Hpending|]. split; [exact Hsent|]. exact Hposts.
Defined.

(** [handles calls] of client.test.ts: the reply to the second call comes
    first. *)
Lemma replies_in_any_order_witness :
  let first := result_message "1" 3 in
  let second := result_message "2" 7 in
  let st12 :=
    fst (Client.onMessage second (fst (Client.onMessage first two_calls))) in
  let st21 :=
    fst (Client.onMessage first (fst (Client.onMessage second two_calls))) in
  pending st12 = pending st21 /\ settlements st12 ≡ₚ settlements st21.
Proof.
  apply (replies_in_any_order two_calls (result_message "1" 3)
           (result_message "2" 7)).
  discriminate.
Defined.

Example replies_out_of_order :
  settlements
    (fst (Client.onMessage (result_message "1" 3)
            (fst (Client.onMessage (result_message "2" 7) two_calls))))
  = [(1, Resolve (JNum (num 7))); (0, Resolve (JNum (num 3)))].
Proof. vm_compute. reflexivity. Qed.

Lemma error_without_body_drops_entry_witness :
  let message :=
    JObj [("jsonrpc", JStr "2.0"); ("id", JStr "1"); ("error", JNull)] in
  exists e,
    receive message one_call
    = (pending_delete (get message "id") one_call, Some e)
    /\ settlements (pending_delete (get message "id") one_call)
       = settlements one_call
    /\ pending_get (get message "id")
         (pending_delete (get message "id") one_call) = None.
Proof.
  intros message.
  apply (error_without_body_drops_entry one_call message 0); reflexivity.
Defined.

(** An error whose [message] is [{toString: 1}]: the entry is deleted,
    then [new RPCError] throws, and the promise is never settled. *)
Example error_with_unprintable_message :
  receive
    (JObj [("jsonrpc", JStr "2.0"); ("id", JStr "1");
           ("error", JObj [("code", JNum (num 1)); ("message", unprintable)])])
    one_call
  = (pending_delete (JStr "1") one_call, Some TypeError_primitive)
  /\ settlements (pending_delete (JStr "1") one_call) = []
  /\ pending (pending_delete (JStr "1") one_call) !! IdString "1" = None.
Proof. vm_compute. repeat split; reflexivity. Qed.

Lemma receive_stops_at_non_object_witness :
  (exists e, receive (JNum (num 5)) two_calls = (two_calls, Some e))
  /\ exists e,
       receive (JArr ([result_message "2" 7] ++ JNum (num 5)
                      :: [result_message "1" 3])) two_calls
       = (fst (forEach_onMessage [result_message "2" 7] two_calls), Some e).
Proof.
  apply (receive_stops_at_non_object two_calls
           (fst (forEach_onMessage [result_message "2" 7] two_calls))
           [result_message "2" 7] (JNum (num 5)) [result_message "1" 3]);
    reflexivity.
Defined.

Lemma receive_accepts_replies_witness :
  snd (receive (JArr [methodNotFound (JStr "2"); result_message "1" 3])
         two_calls) = None.
Proof.
  apply (receive_accepts_replies two_calls
           (JArr [methodNotFound (JStr "2"); result_message "1" 3]));
    [reflexivity|discriminate].
Defined.

Lemma batches_are_independent_witness :
  batches (fst (batch_call mockSend 0 "add" (xy 3 4) two_batches)) !! 1
  = Some []
  /\ batches (fst (flush mockSend 0 two_batches)) !! 1 = Some [].
Proof.
  pose proof (batches_are_independent mockSend two_batches 0 1 "add" (xy 3 4)
                ltac:(discriminate))
    as (Hcall & _ & Hflush & _).
  split; [exact Hcall|exact Hflush].
Defined.

(** Three chunks that cut two lines and a half. *)
Lemma stream_framing_exact_witness :
  let chunks := ["a"; "b" ++ nl ++ "c"; nl ++ nl ++ "d"]%string in
  let '(lines, rest) := feed_lines chunks "" in
  contains_newline rest = false
  /\ Forall (fun line => contains_newline line = false) lines
  /\ (concat_texts (List.map (fun line => line ++ nl)%string lines) ++ rest
      = "" ++ concat_texts chunks)%string.
Proof.
  apply (stream_framing_exact ["a"; "b" ++ nl ++ "c"; nl ++ nl ++ "d"]%string
           ""). reflexivity.
Defined.

Lemma stream_chunking_independent_witness :
  feed_lines ["a"; "b" ++ nl ++ "c"; nl ++ nl ++ "d"]%string ""
  = (["ab"; "c"; ""], "d").
Proof.
  rewrite (stream_chunking_independent
             ["a"; "b" ++ nl ++ "c"; nl ++ nl ++ "d"]%string "" eq_refl).
  reflexivity.
Defined.

Lemma stream_round_trip_witness :
  feed_lines ["nu"; "ll" ++ nl ++ "[]"; nl]%string "" = (["null"; "[]"], "").
Proof.
  apply (stream_round_trip stringify [JNull; JArr []]
           ["nu"; "ll" ++ nl ++ "[]"; nl]%string).
  - repeat constructor.
  - reflexivity.
Defined.

Lemma stream_client_stops_at_bad_line_witness :
  createNodeStreamClient_handleData
    ("{}" ++ nl ++ "oops" ++ nl ++ "[]" ++ nl)%string "" two_calls
  = ("", two_calls, Some (SyntaxError "oops")).
Proof.
  apply (stream_client_stops_at_bad_line
           ("{}" ++ nl ++ "oops" ++ nl ++ "[]" ++ nl)%string "" two_calls
           two_calls ["{}"] "oops" ["[]"] ""); reflexivity.
Defined.

Lemma stream_server_chunking_independent_witness :
  createNodeStreamServer_feed stringify mockHandler
    ["[]"; nl ++ "oo"; "ps" ++ nl]%string ""
  = createNodeStreamServer_handleData stringify mockHandler
      ("[]" ++ nl ++ "oops" ++ nl)%string "".
Proof.
  apply (stream_server_chunking_independent stringify mockHandler
           ["[]"; nl ++ "oo"; "ps" ++ nl]%string ""). reflexivity.
Defined.

Example stream_server_answers_bad_lines :
  createNodeStreamServer_handleData stringify mockHandler
    ("[]" ++ nl ++ "oops" ++ nl)%string ""
  = ("", [write_line stringify invalidRequest;
          write_line stringify parseError]).
Proof. vm_compute. reflexivity. Qed.

Lemma channel_reply_received_witness :
  length (createChannelServer_ReplyToSource (HandlerMap mockHandler)
            (event (request (JNum (num 0)) "throwsBasicError" JUndefined)))
  <= 1
  /\ forall destination reply targetOrigin,
       (destination, reply, targetOrigin)
         ∈ createChannelServer_ReplyToSource (HandlerMap mockHandler)
             (event (request (JNum (num 0)) "throwsBasicError" JUndefined)) ->
       destination = "page"
       /\ targetOrigin = "https://example.org"
       /\ forall reply_event : MessageEvent string,
            data reply_event = reply ->
            snd (createChannelClient reply_event two_calls) = None.
Proof.
  apply (channel_reply_received (HandlerMap mockHandler)
           (event (request (JNum (num 0)) "throwsBasicError" JUndefined))
           mockHandler two_calls).
  reflexivity.
Defined.

Lemma chrome_response_received_witness :
  exists response,
    createChromeExtensionServer (HandlerMap mockHandler)
      (notification "add" (xy 1 2)) tt = Some response
    /\ snd (createChromeExtensionClient_send response two_calls) = None
    /\ (response = JUndefined ->
        createChromeExtensionClient_send response two_calls
        = (two_calls, None)).
Proof.
  apply (chrome_response_received (HandlerMap mockHandler)
           (notification "add" (xy 1 2)) tt mockHandler two_calls);
    [reflexivity|].
  intros carried Hc. simpl in Hc. subst carried. repeat constructor.
Defined.

Example second_call_is_fresh :
  sent two_calls
  = [call_message "1" "add" (xy 1 2); call_message "2" "add" (xy 3 4)]
  /\ pending two_calls !! IdString "2" = Some 1.
Proof. vm_compute. split; reflexivity. Qed.

End MoreExamples.
